(** * OpenAI_ARS: the Twilio <-> OpenAI Realtime streaming bridge

    A shallow embedding of
      - app/utils/audio.py                    (Base64 / G.711 transcoding),
      - app/services/conversation_state.py    (ConversationStateManager),
      - app/services/openai_voice_client.py   (OpenAIVoiceClient),
      - app/services/twilio_stream_handler.py (TwilioStreamHandler),
    and the properties of the bridge proved on it.

    Python objects that are mutated in place (the dicts of the two services,
    the RealtimeSession dataclass instances, the sockets) live in one explicit
    program state; every coroutine is a function from that state to an
    outcome (normal return or raised exception) and the state it leaves. *)

From Stdlib Require Import ZArith List String Ascii Bool Lia.
From Stdlib.Strings Require Import Byte.
From stdpp Require Import gmap strings.
Import ListNotations.
Open Scope Z_scope.

(** ** Exceptions and outcomes *)

(** The exception classes that the modelled code can see.  [BinasciiError] is
    [binascii.Error], a subclass of [ValueError]; every class below derives
    from [Exception]. *)
Inductive exn : Type :=
| ValueError (msg : string)
| BinasciiError (msg : string)
| AudioopError (msg : string)
| ConnectionClosed
| RuntimeError (msg : string).

(** [isinstance(e, ValueError)]. *)
Definition is_ValueError (e : exn) : bool :=
  match e with
  | ValueError _ | BinasciiError _ => true
  | _ => false
  end.

Inductive result (A : Type) : Type :=
| Ok (a : A)
| Raise (e : exn).
Arguments Ok {A} a.
Arguments Raise {A} e.

Definition result_bind {A B} (r : result A) (k : A -> result B) : result B :=
  match r with
  | Ok a => k a
  | Raise e => Raise e
  end.

Definition result_map {A B} (f : A -> B) (r : result A) : result B :=
  result_bind r (fun a => Ok (f a)).

(** ** Bytes *)

Definition Z_of_byte (b : byte) : Z := Z.of_N (Byte.to_N b).

(** Storing an [int] into an [unsigned char]. *)
Definition byte_of_Z (z : Z) : byte :=
  match Byte.of_N (Z.to_N (z mod 256)) with
  | Some b => b
  | None => x00
  end.

Definition code_of_ascii (c : ascii) : Z := Z.of_N (N_of_ascii c).
Definition ascii_of_code (z : Z) : ascii := ascii_of_N (Z.to_N z).

(** ** The [base64] module of the Python standard library

    [b64encode] is [binascii.b2a_base64] without the trailing newline;
    [b64decode] is the default, non-validating decoder
    ([binascii.a2b_base64] with [strict_mode] off): characters outside the
    alphabet are skipped, and the only errors are a non-ASCII character
    ([ValueError]) and a truncated last quantum ([binascii.Error]). *)
Module Base64.

Definition BASE64_PAD : ascii := "="%char.

(** [table_b2a_base64]. *)
Definition table_b2a (i : Z) : ascii :=
  if i <? 26 then ascii_of_code (65 + i)
  else if i <? 52 then ascii_of_code (71 + i)
  else if i <? 62 then ascii_of_code (i - 4)
  else if i =? 62 then "+"%char
  else "/"%char.

(** [table_a2b_base64]; [None] stands for the entries that are not a
    sextet. *)
Definition table_a2b (c : ascii) : option Z :=
  let n := code_of_ascii c in
  if (65 <=? n) && (n <=? 90) then Some (n - 65)
  else if (97 <=? n) && (n <=? 122) then Some (n - 71)
  else if (48 <=? n) && (n <=? 57) then Some (n + 4)
  else if n =? 43 then Some 62
  else if n =? 47 then Some 63
  else None.

Fixpoint b2a (bs : list byte) : string :=
  match bs with
  | [] => EmptyString
  | [b1] =>
      let v1 := Z_of_byte b1 in
      String (table_b2a (Z.shiftr v1 2))
        (String (table_b2a (Z.shiftl (Z.land v1 3) 4))
           (String BASE64_PAD (String BASE64_PAD EmptyString)))
  | [b1; b2] =>
      let v1 := Z_of_byte b1 in
      let v2 := Z_of_byte b2 in
      String (table_b2a (Z.shiftr v1 2))
        (String (table_b2a (Z.lor (Z.shiftl (Z.land v1 3) 4) (Z.shiftr v2 4)))
           (String (table_b2a (Z.shiftl (Z.land v2 15) 2))
              (String BASE64_PAD EmptyString)))
  | b1 :: b2 :: b3 :: rest =>
      let v1 := Z_of_byte b1 in
      let v2 := Z_of_byte b2 in
      let v3 := Z_of_byte b3 in
      String (table_b2a (Z.shiftr v1 2))
        (String (table_b2a (Z.lor (Z.shiftl (Z.land v1 3) 4) (Z.shiftr v2 4)))
           (String (table_b2a (Z.lor (Z.shiftl (Z.land v2 15) 2) (Z.shiftr v3 6)))
              (String (table_b2a (Z.land v3 63)) (b2a rest))))
  end.

(** The decoding loop: [quad_pos] counts the sextets of the current
    quantum, [leftchar] holds the bits not yet written, [pads] the pad
    characters seen since the last sextet. *)
Fixpoint a2b_loop (s : string) (quad_pos : nat) (leftchar : Z) (pads : nat)
  : result (list byte) :=
  match s with
  | EmptyString =>
      match quad_pos with
      | O => Ok []
      | S O => Raise (BinasciiError "Invalid base64-encoded string")
      | _ => Raise (BinasciiError "Incorrect padding")
      end
  | String c rest =>
      if Ascii.eqb c BASE64_PAD then
        if (2 <=? quad_pos)%nat then
          if (4 <=? quad_pos + S pads)%nat then Ok []
          else a2b_loop rest quad_pos leftchar (S pads)
        else a2b_loop rest quad_pos leftchar pads
      else
        match table_a2b c with
        | None => a2b_loop rest quad_pos leftchar pads
        | Some this_ch =>
            match quad_pos with
            | O => a2b_loop rest 1%nat this_ch O
            | S O =>
                result_map
                  (cons (byte_of_Z (Z.lor (Z.shiftl leftchar 2) (Z.shiftr this_ch 4))))
                  (a2b_loop rest 2%nat (Z.land this_ch 15) O)
            | S (S O) =>
                result_map
                  (cons (byte_of_Z (Z.lor (Z.shiftl leftchar 4) (Z.shiftr this_ch 2))))
                  (a2b_loop rest 3%nat (Z.land this_ch 3) O)
            | _ =>
                result_map
                  (cons (byte_of_Z (Z.lor (Z.shiftl leftchar 6) this_ch)))
                  (a2b_loop rest O 0 O)
            end
        end
  end.

Fixpoint is_ascii_only (s : string) : bool :=
  match s with
  | EmptyString => true
  | String c rest => (code_of_ascii c <? 128) && is_ascii_only rest
  end.

Definition b64encode (bs : list byte) : string := b2a bs.

Definition b64decode (s : string) : result (list byte) :=
  if is_ascii_only s then a2b_loop s O 0 O
  else Raise (ValueError "string argument should contain only ASCII characters").

End Base64.

(** ** The [audioop] module of the Python standard library (G.711)

    Samples are 16-bit signed, little-endian, one channel ([width = 2]). *)
Module Audioop.

Definition BIAS : Z := 132.   (* 0x84 *)
Definition CLIP : Z := 32635.

(** A 16-bit sample as two bytes, and back. *)
Definition bytes_of_int16 (v : Z) : list byte :=
  [byte_of_Z (Z.land v 255); byte_of_Z (Z.land (Z.shiftr v 8) 255)].

Definition int16_of_bytes (lo hi : byte) : Z :=
  let u := Z.lor (Z_of_byte lo) (Z.shiftl (Z_of_byte hi) 8) in
  if u <? 32768 then u else u - 65536.

(** [_st_ulaw2linear16], by the formula that generates the table. *)
Definition st_ulaw2linear16 (uc : byte) : Z :=
  let u := Z.lxor (Z_of_byte uc) 255 in
  let t := Z.shiftl (Z.shiftl (Z.land u 15) 3 + BIAS) (Z.shiftr (Z.land u 112) 4) in
  if Z.land u 128 =? 0 then t - BIAS else BIAS - t.

(** [_st_alaw2linear16], by the formula that generates the table. *)
Definition st_alaw2linear16 (uc : byte) : Z :=
  let a := Z.lxor (Z_of_byte uc) 85 in
  let t := Z.shiftl (Z.land a 15) 4 in
  let seg := Z.shiftr (Z.land a 112) 4 in
  let t' := if seg =? 0 then t + 8
            else if seg =? 1 then t + 264
            else Z.shiftl (t + 264) (seg - 1) in
  if Z.land a 128 =? 0 then - t' else t'.

Definition seg_uend : list Z := [63; 127; 255; 511; 1023; 2047; 4095; 8191].

Fixpoint search (val : Z) (table : list Z) (i : Z) : Z :=
  match table with
  | [] => i
  | e :: table' => if val <=? e then i else search val table' (i + 1)
  end.

Definition st_14linear2ulaw (pcm_val : Z) : byte :=
  let '(mag, mask) := if pcm_val <? 0 then (- pcm_val, 127) else (pcm_val, 255) in
  let mag := if CLIP <? mag then CLIP else mag in
  let mag := mag + Z.shiftr BIAS 2 in
  let seg := search mag seg_uend 0 in
  if 8 <=? seg then byte_of_Z (Z.lxor 127 mask)
  else
    let uval := Z.lor (Z.shiftl seg 4) (Z.land (Z.shiftr mag (seg + 1)) 15) in
    byte_of_Z (Z.lxor uval mask).

Definition ulaw2lin (fragment : list byte) : list byte :=
  flat_map (fun uc => bytes_of_int16 (st_ulaw2linear16 uc)) fragment.

Definition alaw2lin (fragment : list byte) : list byte :=
  flat_map (fun uc => bytes_of_int16 (st_alaw2linear16 uc)) fragment.

(** [lin2ulaw(fragment, 2)]: the fragment must hold whole frames. *)
Fixpoint lin2ulaw (fragment : list byte) : result (list byte) :=
  match fragment with
  | [] => Ok []
  | [_] => Raise (AudioopError "not a whole number of frames")
  | lo :: hi :: rest =>
      result_map (cons (st_14linear2ulaw (Z.shiftr (int16_of_bytes lo hi) 2)))
                 (lin2ulaw rest)
  end.

(** One µ-law byte decoded to a 16-bit frame by [ulaw2lin] and encoded
    again by [lin2ulaw]. *)
Definition ulaw_requantize (uc : byte) : byte :=
  match bytes_of_int16 (st_ulaw2linear16 uc) with
  | [lo; hi] => st_14linear2ulaw (Z.shiftr (int16_of_bytes lo hi) 2)
  | _ => uc
  end.

End Audioop.


Import Base64 Audioop.

(** ** app/utils/audio.py *)

Notation "'let!' x ':=' e 'in' k" := (result_bind e (fun x => k))
  (at level 10, x name, e at level 100, k at level 200, only parsing).

Section Audio.

(** [audioop.ratecv(fragment, 2, 1, inrate, outrate, None)[0]]: the linear
    interpolation runs in floating point and is left to the library; it
    raises [audioop.error] on a fragment that holds no whole number of
    frames or on a rate that is not positive. *)
Variable ratecv : list byte -> Z -> Z -> result (list byte).

Definition OPENAI_DEFAULT_SAMPLE_RATE : Z := 16000.
Definition TWILIO_DEFAULT_SAMPLE_RATE : Z := 8000.
Definition TWILIO_DEFAULT_ENCODING : string := "audio/x-mulaw".

(** The dispatch on the encoding tag, after the payload was decoded. *)
Definition decode_by_encoding (raw_bytes : list byte) (encoding : string)
  : result (list byte) :=
  if String.eqb encoding "audio/x-mulaw" then Ok (ulaw2lin raw_bytes)
  else if String.eqb encoding "audio/x-alaw" then Ok (alaw2lin raw_bytes)
  else if String.eqb encoding "audio/x-raw" || String.eqb encoding "audio/L16"
  then Ok raw_bytes
  else Raise (ValueError ("Unsupported audio encoding: " ++ encoding)).

Definition convert_audio_to_pcm16 (media_chunk_b64 encoding : string)
    (source_sample_rate target_sample_rate : Z) : result string :=
  let! raw_bytes := b64decode media_chunk_b64 in
  let! pcm16_bytes := decode_by_encoding raw_bytes encoding in
  let! pcm16_bytes :=
    if source_sample_rate =? target_sample_rate then Ok pcm16_bytes
    else ratecv pcm16_bytes source_sample_rate target_sample_rate in
  Ok (b64encode pcm16_bytes).

Definition convert_pcm16_to_mulaw (audio_chunk_b64 : string)
    (source_sample_rate target_sample_rate : Z) : result string :=
  let! raw_bytes := b64decode audio_chunk_b64 in
  let! raw_bytes :=
    if source_sample_rate =? target_sample_rate then Ok raw_bytes
    else ratecv raw_bytes source_sample_rate target_sample_rate in
  let! mulaw_bytes := lin2ulaw raw_bytes in
  Ok (b64encode mulaw_bytes).

End Audio.

(** ** The program state

    Session objects, sockets and tasks are Python objects with an identity:
    they live in stores indexed by a reference, and the dicts of the services
    hold references.  A session popped from [_sessions] is still the object
    that the receive loop and a scheduled flush hold. *)

Definition ref := nat.

(** What the bridge writes to a socket. *)
Inductive Frame : Type :=
| InputAudioBufferAppend (audio : string)
    (* json.dumps({"type": "input_audio_buffer.append", "audio": audio}) *)
| TwilioMedia (streamSid payload : string).
    (* {"event": "media", "streamSid": streamSid, "media": {"payload": payload}} *)

(** A socket and its peer.  [sock_faults] is the environment: the outcome of
    the coming operations on the socket, [true] for one that raises; past its
    end every operation succeeds. *)
Record Socket : Type := mkSocket {
  sock_sent : list Frame;
  sock_closed : bool;
  sock_faults : list bool
}.

(** [asyncio.Task] for [_debounced_flush(stream_sid, session)].
    [TaskCancelling]: [cancel()] was called and the [CancelledError] is not
    delivered yet; [done()] holds in [TaskDone] only. *)
Inductive TaskState : Type := TaskPending | TaskCancelling | TaskDone.

Record Task : Type := mkTask {
  task_stream_sid : string;
  task_session : ref;
  task_state : TaskState
}.

Definition MIN_COMMIT_SAMPLES : Z := 2400.

Record RealtimeSession : Type := mkRealtimeSession {
  websocket : ref;
  is_waiting_response : bool;
  transcript_buffer : string;
  audio_buffer : list string;
  pending_samples : Z;
  last_commit_request : Z;
  commit_task : option ref;
  session_updated : bool
}.

(** [self._stream_audio_config[stream_sid]]. *)
Record AudioConfig : Type := mkAudioConfig {
  cfg_encoding : string;     (* audio_config["encoding"] *)
  cfg_sample_rate : Z        (* audio_config["sample_rate"] *)
}.

Record World : Type := mkWorld {
  (* OpenAIVoiceClient *)
  _sessions : gmap string ref;
  _twilio_handler : bool;
  (* ConversationStateManager *)
  _session_context : gmap string (gmap string string);
  (* TwilioStreamHandler *)
  _twilio_connections : gmap string ref;
  _stream_audio_config : gmap string AudioConfig;
  (* the objects behind the references, and the event loop *)
  session_objects : gmap ref RealtimeSession;
  sockets : gmap ref Socket;
  tasks : list Task;
  loop_time : Z
}.

Definition set_sessions (f : gmap string ref -> gmap string ref) (w : World) : World :=
  mkWorld (f (_sessions w)) (_twilio_handler w) (_session_context w)
    (_twilio_connections w) (_stream_audio_config w) (session_objects w)
    (sockets w) (tasks w) (loop_time w).

Definition set_session_context
    (f : gmap string (gmap string string) -> gmap string (gmap string string))
    (w : World) : World :=
  mkWorld (_sessions w) (_twilio_handler w) (f (_session_context w))
    (_twilio_connections w) (_stream_audio_config w) (session_objects w)
    (sockets w) (tasks w) (loop_time w).

Definition set_twilio_connections (f : gmap string ref -> gmap string ref)
    (w : World) : World :=
  mkWorld (_sessions w) (_twilio_handler w) (_session_context w)
    (f (_twilio_connections w)) (_stream_audio_config w) (session_objects w)
    (sockets w) (tasks w) (loop_time w).

Definition set_stream_audio_config
    (f : gmap string AudioConfig -> gmap string AudioConfig) (w : World) : World :=
  mkWorld (_sessions w) (_twilio_handler w) (_session_context w)
    (_twilio_connections w) (f (_stream_audio_config w)) (session_objects w)
    (sockets w) (tasks w) (loop_time w).

Definition set_session_objects
    (f : gmap ref RealtimeSession -> gmap ref RealtimeSession) (w : World) : World :=
  mkWorld (_sessions w) (_twilio_handler w) (_session_context w)
    (_twilio_connections w) (_stream_audio_config w) (f (session_objects w))
    (sockets w) (tasks w) (loop_time w).

Definition set_sockets (f : gmap ref Socket -> gmap ref Socket) (w : World) : World :=
  mkWorld (_sessions w) (_twilio_handler w) (_session_context w)
    (_twilio_connections w) (_stream_audio_config w) (session_objects w)
    (f (sockets w)) (tasks w) (loop_time w).

Definition set_tasks (f : list Task -> list Task) (w : World) : World :=
  mkWorld (_sessions w) (_twilio_handler w) (_session_context w)
    (_twilio_connections w) (_stream_audio_config w) (session_objects w)
    (sockets w) (f (tasks w)) (loop_time w).

(** Field updates of a session object. *)
Definition with_waiting (b : bool) (s : RealtimeSession) : RealtimeSession :=
  mkRealtimeSession (websocket s) b (transcript_buffer s) (audio_buffer s)
    (pending_samples s) (last_commit_request s) (commit_task s) (session_updated s).

Definition with_transcript (t : string) (s : RealtimeSession) : RealtimeSession :=
  mkRealtimeSession (websocket s) (is_waiting_response s) t (audio_buffer s)
    (pending_samples s) (last_commit_request s) (commit_task s) (session_updated s).

Definition with_audio (buf : list string) (n : Z) (s : RealtimeSession)
  : RealtimeSession :=
  mkRealtimeSession (websocket s) (is_waiting_response s) (transcript_buffer s) buf
    n (last_commit_request s) (commit_task s) (session_updated s).

Definition with_last_commit_request (t : Z) (s : RealtimeSession) : RealtimeSession :=
  mkRealtimeSession (websocket s) (is_waiting_response s) (transcript_buffer s)
    (audio_buffer s) (pending_samples s) t (commit_task s) (session_updated s).

Definition with_commit_task (t : option ref) (s : RealtimeSession) : RealtimeSession :=
  mkRealtimeSession (websocket s) (is_waiting_response s) (transcript_buffer s)
    (audio_buffer s) (pending_samples s) (last_commit_request s) t (session_updated s).

Definition with_session_updated (b : bool) (s : RealtimeSession) : RealtimeSession :=
  mkRealtimeSession (websocket s) (is_waiting_response s) (transcript_buffer s)
    (audio_buffer s) (pending_samples s) (last_commit_request s) (commit_task s) b.

(** ** Coroutines: state and exceptions *)

Inductive outcome (A : Type) : Type :=
| Returns (a : A)
| Raises (e : exn)
| Cancelled.   (* asyncio.CancelledError, a BaseException: [except Exception] lets it pass *)
Arguments Returns {A} a.
Arguments Raises {A} e.
Arguments Cancelled {A}.

Definition M (A : Type) : Type := World -> outcome A * World.

Definition ret {A} (a : A) : M A := fun w => (Returns a, w).

Definition bind {A B} (c : M A) (k : A -> M B) : M B :=
  fun w =>
    match c w with
    | (Returns a, w') => k a w'
    | (Raises e, w') => (Raises e, w')
    | (Cancelled, w') => (Cancelled, w')
    end.

Notation "x <- c ;; k" := (bind c (fun x => k))
  (at level 100, c at next level, right associativity).
Notation "c ;; k" := (bind c (fun _ => k))
  (at level 100, right associativity).

Definition raise {A} (e : exn) : M A := fun w => (Raises e, w).
Definition gets {A} (f : World -> A) : M A := fun w => (Returns (f w), w).
Definition modify (f : World -> World) : M unit := fun w => (Returns tt, f w).
Definition skip : M unit := ret tt.

(** [try: body  except Exception: handler]. *)
Definition try_except_Exception {A} (body : M A) (handler : exn -> M A) : M A :=
  fun w =>
    match body w with
    | (Raises e, w') => handler e w'
    | r => r
    end.

(** [try: body  except asyncio.CancelledError: pass  except Exception: pass]. *)
Definition try_except_all (body : M unit) : M unit :=
  fun w =>
    match body w with
    | (_, w') => (Returns tt, w')
    end.

(** [try: body  finally: cleanup]: the cleanup always runs; when it returns,
    the outcome of the body stands. *)
Definition try_finally {A} (body : M A) (cleanup : M unit) : M A :=
  fun w =>
    match body w with
    | (r, w') =>
        match cleanup w' with
        | (Returns _, w'') => (r, w'')
        | (Raises e, w'') => (Raises e, w'')
        | (Cancelled, w'') => (Cancelled, w'')
        end
    end.

(** A pure computation that may raise. *)
Definition lift {A} (r : result A) : M A :=
  match r with
  | Ok a => ret a
  | Raise e => raise e
  end.

(** ** Sockets, session objects and tasks *)

Definition fresh_socket : Socket := mkSocket [] false [].

Definition get_socket (w : World) (k : ref) : Socket :=
  default fresh_socket (sockets w !! k).

(** One operation on socket [k]: it raises on a closed socket and when the
    peer makes it fail; otherwise [effect] is applied. *)
Definition sock_op (k : ref) (effect : Socket -> Socket) : M unit :=
  fun w =>
    let sk := get_socket w k in
    if sock_closed sk then (Raises ConnectionClosed, w)
    else
      match sock_faults sk with
      | true :: fs =>
          (Raises ConnectionClosed,
           set_sockets <[k := mkSocket (sock_sent sk) (sock_closed sk) fs]> w)
      | false :: fs =>
          (Returns tt,
           set_sockets <[k := effect (mkSocket (sock_sent sk) (sock_closed sk) fs)]> w)
      | [] => (Returns tt, set_sockets <[k := effect sk]> w)
      end.

(** [await websocket.send(json.dumps(msg))] and [await websocket.send_json(msg)]. *)
Definition sock_send (k : ref) (f : Frame) : M unit :=
  sock_op k (fun sk => mkSocket (sock_sent sk ++ [f]) (sock_closed sk) (sock_faults sk)).

(** [await websocket.close()]. *)
Definition sock_close (k : ref) : M unit :=
  sock_op k (fun sk => mkSocket (sock_sent sk) true (sock_faults sk)).

(** Reading through a reference to a session object. *)
Definition deref (l : ref) : M RealtimeSession :=
  fun w =>
    match session_objects w !! l with
    | Some s => (Returns s, w)
    | None => (Raises (RuntimeError "dangling session reference"), w)
    end.

(** [session.field = value]. *)
Definition update_session (l : ref) (f : RealtimeSession -> RealtimeSession) : M unit :=
  s <- deref l ;;
  modify (set_session_objects <[l := f s]>).

Definition task_is_done (w : World) (t : ref) : bool :=
  match tasks w !! t with
  | Some tk => match task_state tk with TaskDone => true | _ => false end
  | None => true
  end.

Definition set_task_state (st : TaskState) (tk : Task) : Task :=
  mkTask (task_stream_sid tk) (task_session tk) st.

(** [task.cancel()]: a request, served when the loop runs the task again. *)
Definition task_cancel (t : ref) : M unit :=
  modify (set_tasks (alter (fun tk =>
    match task_state tk with
    | TaskPending => set_task_state TaskCancelling tk
    | _ => tk
    end) t)).

(** [asyncio.create_task(self._debounced_flush(stream_sid, session))]. *)
Definition create_task (stream_sid : string) (l : ref) : M ref :=
  fun w =>
    (Returns (length (tasks w)),
     set_tasks (fun ts => ts ++ [mkTask stream_sid l TaskPending]) w).

(** [await asyncio.sleep(...)]: a suspension point; between the coroutines
    modelled here it leaves the state alone. *)
Definition sleep : M unit := skip.

(** ** app/services/conversation_state.py *)

Definition update_context (stream_sid key value : string) : M unit :=
  modify (set_session_context (fun ctx =>
    let session_data := default ∅ (ctx !! stream_sid) in
    <[stream_sid := <[key := value]> session_data]> ctx)).

Definition clear (stream_sid : string) : M unit :=
  modify (set_session_context (delete stream_sid)).

(** ** app/services/openai_voice_client.py *)

Definition register_twilio_handler : M unit :=
  modify (fun w =>
    mkWorld (_sessions w) true (_session_context w) (_twilio_connections w)
      (_stream_audio_config w) (session_objects w) (sockets w) (tasks w)
      (loop_time w)).

(** The [for idx, audio_chunk in enumerate(session.audio_buffer)] loop. *)
Fixpoint send_chunks (k : ref) (chunks : list string) : M unit :=
  match chunks with
  | [] => skip
  | audio_chunk :: rest =>
      _ <- lift (b64decode audio_chunk) ;;
      sock_send k (InputAudioBufferAppend audio_chunk) ;;
      send_chunks k rest
  end.

Definition _flush_audio_buffer (stream_sid : string) (l : ref) : M unit :=
  session <- deref l ;;
  if pending_samples session <? MIN_COMMIT_SAMPLES then skip
  else
    match audio_buffer session with
    | [] => skip
    | _ =>
        send_chunks (websocket session) (audio_buffer session) ;;
        update_session l (with_audio [] 0)
    end.

(** The event loop runs task [t], a [_debounced_flush]: after the sleep it
    flushes; a cancelled task only runs its [finally].  What the coroutine
    raises stays in the task. *)
Definition _debounced_flush (t : ref) : M unit :=
  fun w =>
    match tasks w !! t with
    | None => (Returns tt, w)
    | Some tk =>
        let finish := set_tasks (alter (set_task_state TaskDone) t) in
        let finally_ := update_session (task_session tk) (with_commit_task None) in
        match task_state tk with
        | TaskDone => (Returns tt, w)
        | TaskCancelling =>
            match finally_ w with
            | (_, w') => (Cancelled, finish w')
            end
        | TaskPending =>
            match
              try_finally (sleep ;; _flush_audio_buffer (task_stream_sid tk) (task_session tk))
                          finally_ w
            with
            | (_, w') => (Returns tt, finish w')
            end
        end
    end.

Definition send_audio_chunk (stream_sid audio_chunk_b64 : string) : M unit :=
  session <- gets (fun w => _sessions w !! stream_sid) ;;
  match session with
  | None => skip
  | Some l =>
      match b64decode audio_chunk_b64 with
      | Raise e => if is_ValueError e then skip else raise e
      | Ok audio_bytes =>
          update_session l (fun s =>
            with_audio (audio_buffer s ++ [audio_chunk_b64])
                       (pending_samples s + Z.of_nat (length audio_bytes) / 2) s) ;;
          s <- deref l ;;
          if MIN_COMMIT_SAMPLES <=? pending_samples s then
            now <- gets loop_time ;;
            update_session l (with_last_commit_request now) ;;
            match commit_task s with
            | Some t =>
                done <- gets (fun w => task_is_done w t) ;;
                if done then skip else task_cancel t
            | None => skip
            end ;;
            t' <- create_task stream_sid l ;;
            update_session l (with_commit_task (Some t'))
          else skip
      end
  end.

Definition close_session (stream_sid : string) : M unit :=
  session <- gets (fun w => _sessions w !! stream_sid) ;;
  modify (set_sessions (delete stream_sid)) ;;
  match session with
  | None => skip
  | Some l =>
      s <- deref l ;;
      match commit_task s with
      | Some t =>
          done <- gets (fun w => task_is_done w t) ;;
          if done then skip
          else task_cancel t ;; try_except_all (_debounced_flush t)
      | None => skip
      end ;;
      sleep ;;
      s <- deref l ;;
      (if (MIN_COMMIT_SAMPLES <=? pending_samples s)
          && negb (Nat.eqb (length (audio_buffer s)) 0)
       then try_except_Exception (_flush_audio_buffer stream_sid l) (fun _ => skip)
       else skip) ;;
      update_session l (with_audio [] 0) ;;
      sock_close (websocket s)
  end.

(** A message received from the AI connection: text that [json.loads]
    rejects, or a JSON object, of which the code reads the fields below. *)
Record Payload : Type := mkPayload {
  ev_type : option string;    (* payload.get("type") *)
  ev_delta : option string    (* payload.get("delta") *)
}.

Inductive AiMessage : Type :=
| BadJson
| Json (payload : Payload).

(** The event types that have a branch in [_receive_and_forward]. *)
Definition recognized_event_types : list string :=
  [ "session.created"; "session.updated"; "input_audio_buffer.committed";
    "conversation.item.input_audio_transcription.completed";
    "response.created"; "response.output_audio.delta";
    "response.output_audio.done"; "response.output_item.added";
    "response.content_part.added"; "response.output_audio_transcript.delta";
    "response.output_text.delta"; "response.done"; "response.completed";
    "response.error"; "error" ].

Definition event_is (payload : Payload) (name : string) : bool :=
  match ev_type payload with
  | Some t => String.eqb t name
  | None => false
  end.

Definition nonempty (s : string) : bool :=
  match s with
  | EmptyString => false
  | _ => true
  end.

Section Bridge.

Variable ratecv : list byte -> Z -> Z -> result (list byte).

(** *** app/services/twilio_stream_handler.py *)

Definition register_stream (stream_sid : string) (websocket : ref) : M unit :=
  modify (set_twilio_connections <[stream_sid := websocket]>) ;;
  modify (set_stream_audio_config
            <[stream_sid := mkAudioConfig "audio/x-mulaw" 8000]>).

Definition configure_stream_audio (stream_sid : string)
    (encoding : option string) (sample_rate : option Z) : M unit :=
  audio_config <- gets (fun w => _stream_audio_config w !! stream_sid) ;;
  match audio_config with
  | None => skip
  | Some cfg =>
      let cfg :=
        match encoding with
        | Some e => if nonempty e then mkAudioConfig e (cfg_sample_rate cfg) else cfg
        | None => cfg
        end in
      let cfg :=
        match sample_rate with
        | Some r => if r =? 0 then cfg else mkAudioConfig (cfg_encoding cfg) r
        | None => cfg
        end in
      modify (set_stream_audio_config <[stream_sid := cfg]>)
  end.

Definition forward_media_chunk (stream_sid media_chunk_b64 : string) : M unit :=
  try_except_Exception
    (audio_config <- gets (fun w => _stream_audio_config w !! stream_sid) ;;
     match audio_config with
     | None => skip
     | Some cfg =>
         converted_chunk <-
           lift (convert_audio_to_pcm16 ratecv media_chunk_b64
                   (cfg_encoding cfg) (cfg_sample_rate cfg) 16000) ;;
         send_audio_chunk stream_sid converted_chunk
     end)
    (fun _ => skip).

Definition send_audio_to_twilio (stream_sid audio_payload_b64 : string) : M unit :=
  websocket <- gets (fun w => _twilio_connections w !! stream_sid) ;;
  match websocket with
  | None => skip
  | Some k =>
      match convert_pcm16_to_mulaw ratecv audio_payload_b64 24000 8000 with
      | Raise _ => skip
      | Ok twilio_payload => sock_send k (TwilioMedia stream_sid twilio_payload)
      end
  end.

Definition terminate_session (stream_sid : string) : M unit :=
  try_finally
    (close_session stream_sid)
    (modify (set_twilio_connections (delete stream_sid)) ;;
     modify (set_stream_audio_config (delete stream_sid)) ;;
     clear stream_sid).

(** *** The receive loop of app/services/openai_voice_client.py *)

(** [if session.transcript_buffer: update_context(...); session.transcript_buffer = ""]. *)
Definition persist_transcript (stream_sid : string) (l : ref) : M unit :=
  s <- deref l ;;
  if nonempty (transcript_buffer s) then
    update_context stream_sid "last_ai_response" (transcript_buffer s) ;;
    update_session l (with_transcript "")
  else skip.

(** The [if]/[elif] chain on [event_type], for one decoded payload. *)
Definition handle_event (stream_sid : string) (l : ref) (payload : Payload) : M unit :=
  if event_is payload "session.created" then skip
  else if event_is payload "session.updated" then
    update_session l (with_session_updated true)
  else if event_is payload "input_audio_buffer.committed" then skip
  else if event_is payload "conversation.item.input_audio_transcription.completed"
  then skip
  else if event_is payload "response.created" then skip
  else if event_is payload "response.output_audio.delta" then
    has_handler <- gets _twilio_handler ;;
    match ev_delta payload with
    | Some audio_delta =>
        if nonempty audio_delta && has_handler
        then send_audio_to_twilio stream_sid audio_delta
        else skip
    | None => skip
    end
  else if event_is payload "response.output_audio.done" then skip
  else if event_is payload "response.output_item.added" then skip
  else if event_is payload "response.content_part.added" then skip
  else if event_is payload "response.output_audio_transcript.delta" then skip
  else if event_is payload "response.output_text.delta" then
    let text_delta := default "" (ev_delta payload) in
    update_session l (fun s => with_transcript (transcript_buffer s ++ text_delta) s)
  else if event_is payload "response.done" then
    update_session l (with_waiting false) ;;
    persist_transcript stream_sid l
  else if event_is payload "response.completed" then
    update_session l (with_waiting false) ;;
    persist_transcript stream_sid l
  else if event_is payload "response.error" then
    update_session l (with_waiting false)
  else if event_is payload "error" then
    update_session l (with_waiting false)
  else skip.

Definition handle_message (stream_sid : string) (l : ref) (message : AiMessage)
  : M unit :=
  match message with
  | BadJson => skip
  | Json payload => handle_event stream_sid l payload
  end.

Fixpoint receive_loop (stream_sid : string) (l : ref) (messages : list AiMessage)
  : M unit :=
  match messages with
  | [] => skip
  | message :: rest =>
      handle_message stream_sid l message ;;
      receive_loop stream_sid l rest
  end.

(** [_receive_and_forward], fed with the messages that the AI connection
    delivers before it closes. *)
Definition _receive_and_forward (stream_sid : string) (messages : list AiMessage)
  : M unit :=
  session <- gets (fun w => _sessions w !! stream_sid) ;;
  match session with
  | None => skip
  | Some l =>
      try_except_Exception (receive_loop stream_sid l messages) (fun _ => skip)
  end.

End Bridge.

(** ** Vocabulary of the properties *)

(** The tags of the [SUPPORTED_ENCODINGS] literal of app/utils/audio.py. *)
Definition SUPPORTED_ENCODINGS : list string :=
  ["audio/x-mulaw"; "audio/x-alaw"; "audio/x-raw"; "audio/L16"].

(** [base64.b64decode] accepts the chunk. *)
Definition decodes (chunk : string) : bool :=
  match b64decode chunk with
  | Ok _ => true
  | Raise _ => false
  end.

(** [len(base64.b64decode(chunk)) // 2], the samples that [send_audio_chunk]
    counts for a chunk; a chunk that does not decode counts for nothing. *)
Definition decoded_samples (chunk : string) : Z :=
  match b64decode chunk with
  | Ok audio_bytes => Z.of_nat (length audio_bytes) / 2
  | Raise _ => 0
  end.

Definition total_samples (chunks : list string) : Z :=
  fold_right (fun chunk n => decoded_samples chunk + n) 0 chunks.

(** Successive calls of [send_audio_chunk] on one stream. *)
Fixpoint send_audio_chunks (stream_sid : string) (chunks : list string) : M unit :=
  match chunks with
  | [] => skip
  | chunk :: rest =>
      send_audio_chunk stream_sid chunk ;;
      send_audio_chunks stream_sid rest
  end.

(** The socket is open and its peer lets the next [n] operations succeed. *)
Definition socket_accepts (sk : Socket) (n : nat) : bool :=
  negb (sock_closed sk) && forallb negb (firstn n (sock_faults sk)).

(** The socket after [frames] were sent on it without a failure. *)
Definition socket_after_sends (sk : Socket) (frames : list Frame) : Socket :=
  mkSocket (sock_sent sk ++ frames) (sock_closed sk)
           (skipn (length frames) (sock_faults sk)).

(** The four registries keyed by stream id. *)
Definition registries_kept (w w' : World) : Prop :=
  _sessions w' = _sessions w /\
  _session_context w' = _session_context w /\
  _twilio_connections w' = _twilio_connections w /\
  _stream_audio_config w' = _stream_audio_config w.

(** A coroutine that leaves the registries alone, whatever its outcome. *)
Definition keeps_registries {A} (c : M A) : Prop :=
  forall w, registries_kept w (snd (c w)).

(** A coroutine that leaves the session objects alone, whatever its outcome. *)
Definition keeps_session_objects {A} (c : M A) : Prop :=
  forall w, session_objects (snd (c w)) = session_objects w.

(** The [finally] block of [terminate_session]. *)
Definition terminate_cleanup (stream_sid : string) (w : World) : World :=
  set_session_context (delete stream_sid)
    (set_stream_audio_config (delete stream_sid)
       (set_twilio_connections (delete stream_sid) w)).

(** ** A call, concretely *)

(** A rate converter that refuses every fragment. *)
Definition ratecv_refusing (fragment : list byte) (inrate outrate : Z)
  : result (list byte) :=
  Raise (AudioopError "not a whole number of frames").

(** [n] bytes of PCM16 silence, Base64-encoded. *)
Definition silence_b64 (n : nat) : string := b64encode (repeat x00 n).

Definition new_session (websocket : ref) : RealtimeSession :=
  mkRealtimeSession websocket false "" [] 0 0 None false.

(** Stream CA123 after [register_stream] and [create_session]: its session
    object is at reference 0, the AI socket at 0, the Twilio socket at 1. *)
Definition call_world (s : RealtimeSession) (ai_socket : Socket) : World :=
  mkWorld {["CA123" := 0%nat]} true {["CA123" := ∅]}
          {["CA123" := 1%nat]} {["CA123" := mkAudioConfig "audio/x-mulaw" 8000]}
          {[0%nat := s]} {[0%nat := ai_socket]} [] 0.

Definition idle_world : World := call_world (new_session 0%nat) fresh_socket.

(** A session holding 1000 + 1000 + 600 samples, its flush scheduled. *)
Definition loaded_session : RealtimeSession :=
  mkRealtimeSession 0%nat false ""
    [silence_b64 2000; silence_b64 2000; silence_b64 1200] 2600 0 (Some 0%nat) false.

Definition loaded_world : World :=
  set_tasks (fun _ => [mkTask "CA123" 0%nat TaskPending])
    (call_world loaded_session fresh_socket).

(** The AI connection fails on its next operation. *)
Definition failing_world : World :=
  call_world (new_session 0%nat) (mkSocket [] false [true]).


(** ** The rest of the call path *)


(** ** More of app/services/conversation_state.py *)

(** [str.isspace] on the characters of a [str] held as UTF-8: the white
    space of Python, each as its byte sequence. *)
Definition python_whitespace : list string :=
  map (fun codes => string_of_list_ascii (map ascii_of_code codes))
    [ [9]; [10]; [11]; [12]; [13]; [28]; [29]; [30]; [31]; [32];
      [194; 133]; [194; 160]; [225; 154; 128];
      [226; 128; 128]; [226; 128; 129]; [226; 128; 130]; [226; 128; 131];
      [226; 128; 132]; [226; 128; 133]; [226; 128; 134]; [226; 128; 135];
      [226; 128; 136]; [226; 128; 137]; [226; 128; 138];
      [226; 128; 168]; [226; 128; 169]; [226; 128; 175];
      [226; 129; 159]; [227; 128; 128] ].

(** The rest of [s] after the prefix [p], when [s] starts with [p]. *)
Fixpoint drop_prefix (p s : string) : option string :=
  match p, s with
  | EmptyString, _ => Some s
  | String a p', String b s' => if Ascii.eqb a b then drop_prefix p' s' else None
  | String _ _, EmptyString => None
  end.

(** The rest of [s] after one leading white-space character, if it has one. *)
Fixpoint drop_one_of (ps : list string) (s : string) : option string :=
  match ps with
  | [] => None
  | p :: ps' =>
      match drop_prefix p s with
      | Some rest => Some rest
      | None => drop_one_of ps' s
      end
  end.

(** [str.lstrip()] with the white space in [ps]; [fuel] bounds the number of
    characters dropped and is taken as the length of the string. *)
Fixpoint lstrip_with (ps : list string) (fuel : nat) (s : string) : string :=
  match fuel with
  | O => s
  | S fuel' =>
      match drop_one_of ps s with
      | Some rest => lstrip_with ps fuel' rest
      | None => s
      end
  end.

Definition string_rev (s : string) : string :=
  string_of_list_ascii (rev (list_ascii_of_string s)).

Definition lstrip (s : string) : string :=
  lstrip_with python_whitespace (String.length s) s.

(** [str.rstrip()]: the white space is dropped from the reversed string, each
    byte sequence reversed. *)
Definition rstrip (s : string) : string :=
  string_rev (lstrip_with (map string_rev python_whitespace) (String.length s)
                          (string_rev s)).

(** [str.strip()]. *)
Definition strip (s : string) : string := rstrip (lstrip s).

Definition newline : string := String (ascii_of_code 10) EmptyString.

Definition base_prompt : string :=
  "You are a Korean-speaking customer service agent." ++ newline ++
  "You MUST respond in Korean language only." ++ newline ++
  newline ++
  "Example conversation:" ++ newline ++
  "Customer: 여보세요?" ++ newline ++
  "You: 안녕하십니까. 무엇을 도와드릴까요?" ++ newline ++
  "Customer: 예약 확인하고 싶어요." ++ newline ++
  "You: 네, 예약 확인 도와드리겠습니다." ++ newline ++
  newline ++
  "Always respond in Korean like the examples above.".

(** [self._session_context.setdefault(stream_sid, {})]. *)
Definition setdefault_context (stream_sid : string) : M (gmap string string) :=
  fun w =>
    let session_data := default ∅ (_session_context w !! stream_sid) in
    (Returns session_data, set_session_context <[stream_sid := session_data]> w).

Definition build_system_prompt (stream_sid : string) : M string :=
  session_data <- setdefault_context stream_sid ;;
  let custom_context := default "" (session_data !! "context") in
  ret (strip (base_prompt ++ newline ++ custom_context)).

Definition pop_context (stream_sid key default_ : string) : M string :=
  session_data <- setdefault_context stream_sid ;;
  modify (set_session_context <[stream_sid := delete key session_data]>) ;;
  ret (default default_ (session_data !! key)).

(** ** More vocabulary *)

(** A coroutine that no [CancelledError] escapes from. *)
Definition never_cancelled {A} (c : M A) : Prop :=
  forall w, fst (c w) <> Cancelled.

(** The fields of a session object that belong to the inbound buffer. *)
Definition inbound_part (s : RealtimeSession)
  : ref * list string * Z * Z * option ref :=
  (websocket s, audio_buffer s, pending_samples s, last_commit_request s,
   commit_task s).

(** The text-delta event and the terminal event, as received. *)
Definition text_delta_event (delta : string) : AiMessage :=
  Json (mkPayload (Some "response.output_text.delta") (Some delta)).

Definition response_done_event : AiMessage :=
  Json (mkPayload (Some "response.done") None).

Definition is_bad_json (message : AiMessage) : bool :=
  match message with
  | BadJson => true
  | Json _ => false
  end.

(** A coroutine that leaves the view [f] of the state as it was, whatever
    its outcome. *)
Definition preserves {X A} (f : World -> X) (c : M A) : Prop :=
  forall w, f (snd (c w)) = f w.

(** The text under the key "context" of a stream, the only part of the
    context store that [build_system_prompt] reads. *)
Definition context_text (stream_sid : string) (w : World) : option string :=
  match _session_context w !! stream_sid with
  | Some session_data => session_data !! "context"
  | None => None
  end.

(** The inbound-buffer part of every session object. *)
Definition inbound_parts (w : World)
  : gmap ref (ref * list string * Z * Z * option ref) :=
  inbound_part <$> session_objects w.

(** The tasks after [send_audio_chunk] cancelled the flush that the session
    had scheduled, if it was still to run. *)
Definition cancel_scheduled (w : World) (s : RealtimeSession) : list Task :=
  match commit_task s with
  | Some t =>
      if task_is_done w t then tasks w
      else alter (fun tk =>
                    match task_state tk with
                    | TaskPending => set_task_state TaskCancelling tk
                    | _ => tk
                    end) t (tasks w)
  | None => tasks w
  end.

(** A rate converter that hands the fragment back. *)
Definition ratecv_same (fragment : list byte) (inrate outrate : Z)
  : result (list byte) := Ok fragment.

(** The part of [close_session] after the session was popped and read. *)
Definition close_popped (stream_sid : string) (l : ref) (s : RealtimeSession)
  : M unit :=
  match commit_task s with
  | Some t =>
      done <- gets (fun w => task_is_done w t) ;;
      if done then skip
      else task_cancel t ;; try_except_all (_debounced_flush t)
  | None => skip
  end ;;
  sleep ;;
  s <- deref l ;;
  (if (MIN_COMMIT_SAMPLES <=? pending_samples s)
      && negb (Nat.eqb (length (audio_buffer s)) 0)
   then try_except_Exception (_flush_audio_buffer stream_sid l) (fun _ => skip)
   else skip) ;;
  update_session l (with_audio [] 0) ;;
  sock_close (websocket s).

(** No session object waits for a response in [w'] that did not in [w]. *)
Definition no_new_waiting (w w' : World) : Prop :=
  forall l : ref,
    (is_waiting_response <$> session_objects w' !! l) = Some true ->
    (is_waiting_response <$> session_objects w !! l) = Some true.

(** A coroutine that is within the relation [R], whatever its outcome. *)
Definition respects {A} (R : World -> World -> Prop) (c : M A) : Prop :=
  forall w, R w (snd (c w)).

(** The messages of a receive loop that [json.loads] accepts. *)
Definition parsed_messages (messages : list AiMessage) : list AiMessage :=
  List.filter (fun message => negb (is_bad_json message)) messages.


(** An audio delta of the AI connection, as received. *)
Definition audio_delta_event (delta : string) : AiMessage :=
  Json (mkPayload (Some "response.output_audio.delta") (Some delta)).


(** The AI connection takes one send and fails on the next. *)
Definition flaky_world : World :=
  set_tasks (fun _ => [mkTask "CA123" 0%nat TaskPending])
    (call_world loaded_session (mkSocket [] false [false; true])).

(** The caller has hung up: the Twilio socket is closed. *)
Definition hung_up_world : World :=
  set_sockets <[1%nat := mkSocket [] true []]> idle_world.

(** The stream was configured as raw PCM at 16000 Hz. *)
Definition raw_pcm_world : World :=
  set_stream_audio_config <["CA123" := mkAudioConfig "audio/L16" 16000]> idle_world.

(** * Properties *)

(** ** Shifts and masks as arithmetic *)

Lemma lor_shiftl_add (x y n : Z) :
  0 <= n -> 0 <= y < 2 ^ n -> Z.lor (Z.shiftl x n) y = x * 2 ^ n + y.
Proof.
  intros Hn Hy.
  assert (Hdisj : Z.land (Z.shiftl x n) y = 0).
  { apply Z.bits_inj'. intros i Hi.
    rewrite Z.land_spec, Z.bits_0.
    destruct (Z.ltb_spec i n) as [Hlt | Hge].
    - rewrite Z.shiftl_spec_low by lia. reflexivity.
    - rewrite <- (Z.mod_small y (2 ^ n)) by lia.
      rewrite Z.mod_pow2_bits_high by lia. apply andb_false_r. }
  rewrite <- Z.lxor_lor, <- Z.add_nocarry_lxor by exact Hdisj.
  rewrite Z.shiftl_mul_pow2 by lia. reflexivity.
Qed.

Lemma land_mask (x k : Z) : 0 <= k -> Z.land x (2 ^ k - 1) = x mod 2 ^ k.
Proof.
  intros Hk. rewrite <- Z.land_ones by lia.
  rewrite Z.ones_equiv. reflexivity.
Qed.

Lemma land_3 x : Z.land x 3 = x mod 4.
Proof. exact (land_mask x 2 ltac:(lia)). Qed.
Lemma land_15 x : Z.land x 15 = x mod 16.
Proof. exact (land_mask x 4 ltac:(lia)). Qed.
Lemma land_63 x : Z.land x 63 = x mod 64.
Proof. exact (land_mask x 6 ltac:(lia)). Qed.
Lemma shiftr_2 x : Z.shiftr x 2 = x / 4.
Proof. apply Z.shiftr_div_pow2. lia. Qed.
Lemma shiftr_4 x : Z.shiftr x 4 = x / 16.
Proof. apply Z.shiftr_div_pow2. lia. Qed.
Lemma shiftr_6 x : Z.shiftr x 6 = x / 64.
Proof. apply Z.shiftr_div_pow2. lia. Qed.
Lemma shiftl_2 x : Z.shiftl x 2 = x * 4.
Proof. apply Z.shiftl_mul_pow2. lia. Qed.
Lemma shiftl_4 x : Z.shiftl x 4 = x * 16.
Proof. apply Z.shiftl_mul_pow2. lia. Qed.
Lemma shiftl_6 x : Z.shiftl x 6 = x * 64.
Proof. apply Z.shiftl_mul_pow2. lia. Qed.

Lemma lor_mul_4 x y : 0 <= y < 4 -> Z.lor (x * 4) y = x * 4 + y.
Proof. intros. rewrite <- (shiftl_2 x) at 1. rewrite (lor_shiftl_add x y 2) by lia. reflexivity. Qed.
Lemma lor_mul_16 x y : 0 <= y < 16 -> Z.lor (x * 16) y = x * 16 + y.
Proof. intros. rewrite <- (shiftl_4 x) at 1. rewrite (lor_shiftl_add x y 4) by lia. reflexivity. Qed.
Lemma lor_mul_64 x y : 0 <= y < 64 -> Z.lor (x * 64) y = x * 64 + y.
Proof. intros. rewrite <- (shiftl_6 x) at 1. rewrite (lor_shiftl_add x y 6) by lia. reflexivity. Qed.
Ltac arith := Z.div_mod_to_equations; lia.

(** Turns the shifts and masks of the goal into [/], [mod], [*] and [+]. *)
Ltac bits_to_arith :=
  rewrite ?land_3, ?land_15, ?land_63, ?shiftr_2, ?shiftr_4, ?shiftr_6,
          ?shiftl_2, ?shiftl_4, ?shiftl_6;
  repeat match goal with
         | |- context [Z.lor (?x * 4) ?y] => rewrite (lor_mul_4 x y) by arith
         | |- context [Z.lor (?x * 16) ?y] => rewrite (lor_mul_16 x y) by arith
         | |- context [Z.lor (?x * 64) ?y] => rewrite (lor_mul_64 x y) by arith
         end.

Lemma sextet1_range v1 : 0 <= v1 < 256 -> 0 <= Z.shiftr v1 2 < 64.
Proof. intros. bits_to_arith. arith. Qed.

Lemma sextet2_range v1 v2 :
  0 <= v1 < 256 -> 0 <= v2 < 256 ->
  0 <= Z.lor (Z.shiftl (Z.land v1 3) 4) (Z.shiftr v2 4) < 64.
Proof. intros. bits_to_arith. arith. Qed.

Lemma sextet2_pad_range v1 : 0 <= v1 < 256 -> 0 <= Z.shiftl (Z.land v1 3) 4 < 64.
Proof. intros. bits_to_arith. arith. Qed.

Lemma sextet3_range v2 v3 :
  0 <= v2 < 256 -> 0 <= v3 < 256 ->
  0 <= Z.lor (Z.shiftl (Z.land v2 15) 2) (Z.shiftr v3 6) < 64.
Proof. intros. bits_to_arith. arith. Qed.

Lemma sextet3_pad_range v2 : 0 <= v2 < 256 -> 0 <= Z.shiftl (Z.land v2 15) 2 < 64.
Proof. intros. bits_to_arith. arith. Qed.

Lemma sextet4_range v3 : 0 <= v3 < 256 -> 0 <= Z.land v3 63 < 64.
Proof. intros. bits_to_arith. arith. Qed.

Lemma octet1 v1 v2 :
  0 <= v1 < 256 -> 0 <= v2 < 256 ->
  Z.lor (Z.shiftl (Z.shiftr v1 2) 2)
        (Z.shiftr (Z.lor (Z.shiftl (Z.land v1 3) 4) (Z.shiftr v2 4)) 4) = v1.
Proof. intros. bits_to_arith. arith. Qed.

Lemma octet1_pad v1 :
  0 <= v1 < 256 ->
  Z.lor (Z.shiftl (Z.shiftr v1 2) 2) (Z.shiftr (Z.shiftl (Z.land v1 3) 4) 4) = v1.
Proof. intros. bits_to_arith. arith. Qed.

Lemma octet2 v1 v2 v3 :
  0 <= v1 < 256 -> 0 <= v2 < 256 -> 0 <= v3 < 256 ->
  Z.lor (Z.shiftl (Z.land (Z.lor (Z.shiftl (Z.land v1 3) 4) (Z.shiftr v2 4)) 15) 4)
        (Z.shiftr (Z.lor (Z.shiftl (Z.land v2 15) 2) (Z.shiftr v3 6)) 2) = v2.
Proof. intros. bits_to_arith. arith. Qed.

Lemma octet2_pad v1 v2 :
  0 <= v1 < 256 -> 0 <= v2 < 256 ->
  Z.lor (Z.shiftl (Z.land (Z.lor (Z.shiftl (Z.land v1 3) 4) (Z.shiftr v2 4)) 15) 4)
        (Z.shiftr (Z.shiftl (Z.land v2 15) 2) 2) = v2.
Proof. intros. bits_to_arith. arith. Qed.

Lemma octet3 v2 v3 :
  0 <= v2 < 256 -> 0 <= v3 < 256 ->
  Z.lor (Z.shiftl (Z.land (Z.lor (Z.shiftl (Z.land v2 15) 2) (Z.shiftr v3 6)) 3) 6)
        (Z.land v3 63) = v3.
Proof. intros. bits_to_arith. arith. Qed.

(** ** The codecs *)

Lemma Z_of_byte_range (b : byte) : 0 <= Z_of_byte b < 256.
Proof.
  unfold Z_of_byte. pose proof (Byte.to_N_bounded b). lia.
Qed.

Lemma byte_of_Z_of_byte (b : byte) : byte_of_Z (Z_of_byte b) = b.
Proof.
  unfold byte_of_Z. rewrite Z.mod_small by apply Z_of_byte_range.
  unfold Z_of_byte. rewrite N2Z.id, Byte.of_to_N. reflexivity.
Qed.

Module Base64Facts.

Lemma sextet_enum (P : Z -> bool) :
  forallb P (map Z.of_nat (seq 0 64)) = true ->
  forall i, 0 <= i < 64 -> P i = true.
Proof.
  intros Hall i Hi.
  rewrite forallb_forall in Hall. apply Hall.
  apply in_map_iff. exists (Z.to_nat i). split; [lia |].
  apply in_seq. lia.
Qed.

Lemma table_a2b_b2a (i : Z) : 0 <= i < 64 -> table_a2b (table_b2a i) = Some i.
Proof.
  intros Hi.
  pose proof (sextet_enum
    (fun i => match table_a2b (table_b2a i) with
              | Some j => j =? i
              | None => false
              end)) as Hen.
  specialize (Hen eq_refl i Hi). cbv beta in Hen.
  destruct (table_a2b (table_b2a i)); [| discriminate].
  f_equal. lia.
Qed.

Lemma table_b2a_not_pad (i : Z) :
  0 <= i < 64 -> Ascii.eqb (table_b2a i) BASE64_PAD = false.
Proof.
  intros Hi.
  pose proof (sextet_enum (fun i => negb (Ascii.eqb (table_b2a i) BASE64_PAD)))
    as Hen.
  specialize (Hen eq_refl i Hi). cbv beta in Hen.
  destruct (Ascii.eqb (table_b2a i) BASE64_PAD); [discriminate | reflexivity].
Qed.

Lemma table_b2a_is_ascii (i : Z) :
  0 <= i < 64 -> (code_of_ascii (table_b2a i) <? 128) = true.
Proof.
  intros Hi.
  exact (sextet_enum (fun i => (code_of_ascii (table_b2a i) <? 128)) eq_refl i Hi).
Qed.

(** One step of the decoder on a character of the alphabet. *)
Lemma a2b_loop_sextet (i : Z) (rest : string) (quad_pos : nat) (leftchar : Z)
      (pads : nat) :
  0 <= i < 64 ->
  a2b_loop (String (table_b2a i) rest) quad_pos leftchar pads =
  match quad_pos with
  | O => a2b_loop rest 1%nat i O
  | S O =>
      result_map (cons (byte_of_Z (Z.lor (Z.shiftl leftchar 2) (Z.shiftr i 4))))
                 (a2b_loop rest 2%nat (Z.land i 15) O)
  | S (S O) =>
      result_map (cons (byte_of_Z (Z.lor (Z.shiftl leftchar 4) (Z.shiftr i 2))))
                 (a2b_loop rest 3%nat (Z.land i 3) O)
  | _ =>
      result_map (cons (byte_of_Z (Z.lor (Z.shiftl leftchar 6) i)))
                 (a2b_loop rest O 0 O)
  end.
Proof.
  intros Hi. cbn [a2b_loop].
  rewrite table_b2a_not_pad, table_a2b_b2a by exact Hi. reflexivity.
Qed.

Lemma list_ind3 {A} (P : list A -> Prop) :
  P [] -> (forall a, P [a]) -> (forall a b, P [a; b]) ->
  (forall a b c l, P l -> P (a :: b :: c :: l)) ->
  forall l, P l.
Proof.
  intros H0 H1 H2 H3.
  fix IH 1. intros [| a [| b [| c l]]].
  - exact H0.
  - apply H1.
  - apply H2.
  - apply H3, IH.
Qed.

Lemma a2b_loop_b2a (bs : list byte) :
  forall leftchar pads, a2b_loop (b2a bs) O leftchar pads = Ok bs.
Proof.
  induction bs as [| b1 | b1 b2 | b1 b2 b3 rest IH] using list_ind3;
    intros leftchar pads.
  - reflexivity.
  - pose proof (Z_of_byte_range b1) as R1.
    cbn [b2a].
    rewrite a2b_loop_sextet by (apply sextet1_range; exact R1).
    rewrite a2b_loop_sextet by (apply sextet2_pad_range; exact R1).
    cbn [a2b_loop Ascii.eqb]. change (Ascii.eqb BASE64_PAD BASE64_PAD) with true.
    cbn.
    rewrite octet1_pad by exact R1. rewrite byte_of_Z_of_byte.
    reflexivity.
  - pose proof (Z_of_byte_range b1) as R1.
    pose proof (Z_of_byte_range b2) as R2.
    cbn [b2a].
    rewrite a2b_loop_sextet by (apply sextet1_range; exact R1).
    rewrite a2b_loop_sextet by (apply sextet2_range; assumption).
    rewrite a2b_loop_sextet by (apply sextet3_pad_range; assumption).
    rewrite octet1, octet2_pad by assumption. rewrite !byte_of_Z_of_byte.
    reflexivity.
  - pose proof (Z_of_byte_range b1) as R1.
    pose proof (Z_of_byte_range b2) as R2.
    pose proof (Z_of_byte_range b3) as R3.
    cbn [b2a].
    rewrite a2b_loop_sextet by (apply sextet1_range; exact R1).
    rewrite a2b_loop_sextet by (apply sextet2_range; assumption).
    rewrite a2b_loop_sextet by (apply sextet3_range; assumption).
    rewrite a2b_loop_sextet by (apply sextet4_range; assumption).
    rewrite IH.
    rewrite octet1, octet2, octet3 by assumption. rewrite !byte_of_Z_of_byte.
    reflexivity.
Qed.

Lemma b2a_is_ascii (bs : list byte) : is_ascii_only (b2a bs) = true.
Proof.
  induction bs as [| b1 | b1 b2 | b1 b2 b3 rest IH] using list_ind3.
  - reflexivity.
  - pose proof (Z_of_byte_range b1) as R1.
    cbn [b2a is_ascii_only].
    rewrite !table_b2a_is_ascii
      by first [apply sextet1_range; lia | apply sextet2_pad_range; lia].
    reflexivity.
  - pose proof (Z_of_byte_range b1) as R1.
    pose proof (Z_of_byte_range b2) as R2.
    cbn [b2a is_ascii_only].
    rewrite !table_b2a_is_ascii
      by first [apply sextet1_range; lia | apply sextet2_range; lia
               | apply sextet3_pad_range; lia].
    reflexivity.
  - pose proof (Z_of_byte_range b1) as R1.
    pose proof (Z_of_byte_range b2) as R2.
    pose proof (Z_of_byte_range b3) as R3.
    cbn [b2a is_ascii_only].
    rewrite !table_b2a_is_ascii
      by first [apply sextet1_range; lia | apply sextet2_range; lia
               | apply sextet3_range; lia | apply sextet4_range; lia].
    rewrite IH. reflexivity.
Qed.

(** [base64.b64decode(base64.b64encode(bs)) == bs]. *)
Lemma b64decode_b64encode (bs : list byte) : b64decode (b64encode bs) = Ok bs.
Proof.
  unfold b64decode, b64encode. rewrite b2a_is_ascii. apply a2b_loop_b2a.
Qed.

(** The decoder raises nothing but [ValueError] and its subclass. *)
Lemma a2b_loop_raises (s : string) :
  forall quad_pos leftchar pads e,
    a2b_loop s quad_pos leftchar pads = Raise e -> is_ValueError e = true.
Proof.
  induction s as [| c rest IH]; intros quad_pos leftchar pads e; cbn [a2b_loop].
  - destruct quad_pos as [| [| q]]; intros H; inversion H; reflexivity.
  - destruct (Ascii.eqb c BASE64_PAD).
    + destruct (2 <=? quad_pos)%nat; [| apply IH].
      destruct (4 <=? quad_pos + S pads)%nat; [discriminate | apply IH].
    + destruct (table_a2b c) as [this_ch |]; [| apply IH].
      destruct quad_pos as [| [| [| q]]]; [apply IH | | |];
        unfold result_map, result_bind;
        match goal with
        | |- context [a2b_loop rest ?q ?l ?p] =>
            destruct (a2b_loop rest q l p) eqn:E; [discriminate |];
            intros H; inversion H; subst; exact (IH _ _ _ _ E)
        end.
Qed.

Lemma b64decode_raises (s : string) (e : exn) :
  b64decode s = Raise e -> is_ValueError e = true.
Proof.
  unfold b64decode. destruct (is_ascii_only s).
  - apply a2b_loop_raises.
  - intros H. inversion H. reflexivity.
Qed.

End Base64Facts.

Module AudioopFacts.

Lemma ulaw_requantize_same_level (uc : byte) :
  st_ulaw2linear16 (ulaw_requantize uc) = st_ulaw2linear16 uc.
Proof. destruct uc; vm_compute; reflexivity. Qed.

Lemma ulaw_requantize_id (uc : byte) : uc <> x7f -> ulaw_requantize uc = uc.
Proof. destruct uc; intros H; try (vm_compute; reflexivity); congruence. Qed.

Lemma lin2ulaw_ulaw2lin (x : list byte) :
  lin2ulaw (ulaw2lin x) = Ok (map ulaw_requantize x).
Proof.
  induction x as [| uc x IH]; [reflexivity |].
  change (ulaw2lin (uc :: x))
    with (bytes_of_int16 (st_ulaw2linear16 uc) ++ ulaw2lin x).
  unfold bytes_of_int16 at 1. cbn [app lin2ulaw].
  rewrite IH. reflexivity.
Qed.

End AudioopFacts.

(** ** The bridge *)

Lemma World_eta (w : World) :
  mkWorld (_sessions w) (_twilio_handler w) (_session_context w)
    (_twilio_connections w) (_stream_audio_config w) (session_objects w)
    (sockets w) (tasks w) (loop_time w) = w.
Proof. destruct w; reflexivity. Qed.

Lemma decode_by_encoding_unsupported (raw_bytes : list byte) (encoding : string) :
  ~ In encoding SUPPORTED_ENCODINGS ->
  decode_by_encoding raw_bytes encoding
  = Raise (ValueError ("Unsupported audio encoding: " ++ encoding)).
Proof.
  intros Hout. unfold decode_by_encoding.
  repeat match goal with
         | |- context [String.eqb encoding ?tag] =>
             destruct (String.eqb_spec encoding tag) as [-> | _];
             [exfalso; apply Hout; cbn; tauto |]
         end.
  reflexivity.
Qed.

Lemma event_is_unrecognized (payload : Payload) (name : string) :
  (forall t, ev_type payload = Some t -> ~ In t recognized_event_types) ->
  In name recognized_event_types ->
  event_is payload name = false.
Proof.
  intros Hun Hin. unfold event_is.
  destruct (ev_type payload) as [t |] eqn:Et; [| reflexivity].
  destruct (String.eqb_spec t name) as [-> | Hne]; [| reflexivity].
  exfalso. exact (Hun name eq_refl Hin).
Qed.


(** Equations of the coroutine combinators. *)

Lemma bind_returns {A B} (c : M A) (k : A -> M B) (w w' : World) (a : A) :
  c w = (Returns a, w') -> bind c k w = k a w'.
Proof. intros H. unfold bind. rewrite H. reflexivity. Qed.

Lemma bind_raises {A B} (c : M A) (k : A -> M B) (w w' : World) (e : exn) :
  c w = (Raises e, w') -> bind c k w = (Raises e, w').
Proof. intros H. unfold bind. rewrite H. reflexivity. Qed.

Lemma deref_some (l : ref) (w : World) (s : RealtimeSession) :
  session_objects w !! l = Some s -> deref l w = (Returns s, w).
Proof. intros H. unfold deref. rewrite H. reflexivity. Qed.

Lemma update_session_some (l : ref) (f : RealtimeSession -> RealtimeSession)
      (w : World) (s : RealtimeSession) :
  session_objects w !! l = Some s ->
  update_session l f w = (Returns tt, set_session_objects <[l := f s]> w).
Proof.
  intros H. unfold update_session.
  rewrite (bind_returns _ _ _ _ _ (deref_some l w s H)). reflexivity.
Qed.

Lemma lookup_updated (l : ref) (s : RealtimeSession) (w : World) :
  session_objects (set_session_objects <[l := s]> w) !! l = Some s.
Proof. cbn. apply lookup_insert_eq. Qed.

Lemma update_update (l : ref) (s s' : RealtimeSession) (w : World) :
  set_session_objects <[l := s']> (set_session_objects <[l := s]> w)
  = set_session_objects <[l := s']> w.
Proof. unfold set_session_objects. cbn. rewrite insert_insert_eq. reflexivity. Qed.

Section BridgeFacts.

Variable ratecv : list byte -> Z -> Z -> result (list byte).

(** C8.  A µ-law byte sequence [x], sent through [convert_audio_to_pcm16]
    and back through [convert_pcm16_to_mulaw] at one and the same rate [r],
    comes back as [x] up to µ-law quantization: every byte comes back with
    the amplitude it had, and unchanged unless it is the negative zero
    0x7f.  No resampling takes part: the result is the same for every
    [ratecv]. *)
Theorem mulaw_round_trip (x : list byte) (r : Z) :
  convert_audio_to_pcm16 ratecv (b64encode x) "audio/x-mulaw" r r
    = Ok (b64encode (ulaw2lin x)) /\
  convert_pcm16_to_mulaw ratecv (b64encode (ulaw2lin x)) r r
    = Ok (b64encode (map ulaw_requantize x)) /\
  Forall2 (fun uc uc' =>
             st_ulaw2linear16 uc' = st_ulaw2linear16 uc /\
             (uc <> x7f -> uc' = uc))
          x (map ulaw_requantize x).
Proof.
  split; [| split].
  - unfold convert_audio_to_pcm16.
    rewrite Base64Facts.b64decode_b64encode. cbn [result_bind].
    unfold decode_by_encoding. cbn [String.eqb Ascii.eqb Bool.eqb].
    cbn [result_bind]. rewrite Z.eqb_refl. reflexivity.
  - unfold convert_pcm16_to_mulaw.
    rewrite Base64Facts.b64decode_b64encode. cbn [result_bind].
    rewrite Z.eqb_refl. cbn [result_bind].
    rewrite AudioopFacts.lin2ulaw_ulaw2lin. reflexivity.
  - induction x as [| uc x IH]; constructor; [| exact IH].
    split.
    + apply AudioopFacts.ulaw_requantize_same_level.
    + apply AudioopFacts.ulaw_requantize_id.
Qed.

(** C7.  On a decoded byte buffer, an encoding tag outside the four
    supported ones makes [convert_audio_to_pcm16] raise the
    unsupported-encoding [ValueError], whatever the rates and [ratecv] are;
    the dispatch raises on none of the four supported tags; and
    [forward_media_chunk] on a stream configured with an unsupported tag
    returns normally and leaves the whole state alone: nothing is buffered
    or sent. *)
Theorem unsupported_encoding_is_dropped :
  (forall raw_bytes encoding source_sample_rate target_sample_rate,
      ~ In encoding SUPPORTED_ENCODINGS ->
      convert_audio_to_pcm16 ratecv (b64encode raw_bytes) encoding
        source_sample_rate target_sample_rate
      = Raise (ValueError ("Unsupported audio encoding: " ++ encoding))) /\
  (forall raw_bytes encoding,
      In encoding SUPPORTED_ENCODINGS ->
      exists pcm16_bytes, decode_by_encoding raw_bytes encoding = Ok pcm16_bytes) /\
  (forall stream_sid media_chunk_b64 cfg w,
      _stream_audio_config w !! stream_sid = Some cfg ->
      ~ In (cfg_encoding cfg) SUPPORTED_ENCODINGS ->
      forward_media_chunk ratecv stream_sid media_chunk_b64 w = (Returns tt, w)).
Proof.
  split; [| split].
  - intros raw_bytes encoding r1 r2 Hout. unfold convert_audio_to_pcm16.
    rewrite Base64Facts.b64decode_b64encode. cbn [result_bind].
    rewrite decode_by_encoding_unsupported by exact Hout. reflexivity.
  - intros raw_bytes encoding Hin. unfold decode_by_encoding.
    cbn in Hin. destruct Hin as [<- | [<- | [<- | [<- | []]]]]; cbn; eauto.
  - intros stream_sid media_chunk_b64 cfg w Hcfg Hout.
    unfold forward_media_chunk, try_except_Exception, bind, gets.
    rewrite Hcfg. unfold convert_audio_to_pcm16.
    destruct (b64decode media_chunk_b64) as [raw_bytes | e]; cbn [result_bind lift].
    + rewrite decode_by_encoding_unsupported by exact Hout. reflexivity.
    + reflexivity.
Qed.

(** C9.  A stream id that the registry consulted by an operation does not
    hold makes the operation return normally with the state as it was:
    [send_audio_chunk] (the AI-session map), [forward_media_chunk] and
    [configure_stream_audio] (the audio-config registry) and
    [send_audio_to_twilio] (the telephony-connection registry). *)
Theorem unknown_stream_is_noop (stream_sid : string) (w : World) :
  (_sessions w !! stream_sid = None ->
   forall audio_chunk_b64,
     send_audio_chunk stream_sid audio_chunk_b64 w = (Returns tt, w)) /\
  (_stream_audio_config w !! stream_sid = None ->
   forall media_chunk_b64,
     forward_media_chunk ratecv stream_sid media_chunk_b64 w = (Returns tt, w)) /\
  (_twilio_connections w !! stream_sid = None ->
   forall audio_payload_b64,
     send_audio_to_twilio ratecv stream_sid audio_payload_b64 w = (Returns tt, w)) /\
  (_stream_audio_config w !! stream_sid = None ->
   forall encoding sample_rate,
     configure_stream_audio stream_sid encoding sample_rate w = (Returns tt, w)).
Proof.
  repeat split; intros Hnone; intros.
  - unfold send_audio_chunk, bind, gets. rewrite Hnone. reflexivity.
  - unfold forward_media_chunk, try_except_Exception, bind, gets.
    rewrite Hnone. reflexivity.
  - unfold send_audio_to_twilio, bind, gets. rewrite Hnone. reflexivity.
  - unfold configure_stream_audio, bind, gets. rewrite Hnone. reflexivity.
Qed.

(** C4.  An event whose type is none of the types that the receive loop
    has a branch for leaves the whole state as it was: every field of every
    session object (among them is_waiting_response, transcript_buffer,
    audio_buffer and pending_samples), the context store, the registries,
    the sockets and the tasks; so nothing is sent. *)
Theorem unrecognized_event_is_ignored
    (stream_sid : string) (l : ref) (payload : Payload) (w : World) :
  (forall t, ev_type payload = Some t -> ~ In t recognized_event_types) ->
  handle_event ratecv stream_sid l payload w = (Returns tt, w).
Proof.
  intros Hun. unfold handle_event.
  rewrite !(event_is_unrecognized payload) by (try exact Hun; cbn; tauto).
  reflexivity.
Qed.


End BridgeFacts.

(** ** Sockets *)

Lemma get_socket_put (k : ref) (sk : Socket) (w : World) :
  get_socket (set_sockets <[k := sk]> w) k = sk.
Proof. unfold get_socket. cbn. rewrite lookup_insert_eq. reflexivity. Qed.

Lemma put_socket_twice (k : ref) (sk sk' : Socket) (w : World) :
  set_sockets <[k := sk']> (set_sockets <[k := sk]> w) = set_sockets <[k := sk']> w.
Proof. unfold set_sockets. cbn. rewrite insert_insert_eq. reflexivity. Qed.

Lemma socket_accepts_S (sk : Socket) (n : nat) :
  socket_accepts sk (S n) = true ->
  sock_closed sk = false /\
  (sock_faults sk = [] \/ exists fs, sock_faults sk = false :: fs) /\
  socket_accepts (mkSocket (sock_sent sk) (sock_closed sk) (tl (sock_faults sk))) n
  = true.
Proof.
  unfold socket_accepts. destruct sk as [sent closed faults]. cbn.
  destruct closed; [discriminate |]. cbn.
  destruct faults as [| [|] fs]; cbn; intros H; try discriminate.
  - repeat split; [left; reflexivity |]. destruct n; reflexivity.
  - repeat split; [right; eauto | exact H].
Qed.

(** An operation on a socket that accepts it. *)
Lemma sock_op_accepted (k : ref) (effect : Socket -> Socket) (w : World) :
  socket_accepts (get_socket w k) 1 = true ->
  sock_op k effect w =
  (Returns tt,
   set_sockets <[k := effect (mkSocket (sock_sent (get_socket w k))
                                       (sock_closed (get_socket w k))
                                       (tl (sock_faults (get_socket w k))))]> w).
Proof.
  intros Hacc. apply socket_accepts_S in Hacc as (Hopen & Hfaults & _).
  unfold sock_op. cbv zeta. rewrite Hopen.
  destruct Hfaults as [Hnil | [fs Hfs]].
  - rewrite Hnil. cbn [tl]. rewrite <- Hnil, <- Hopen.
    destruct (get_socket w k); reflexivity.
  - rewrite Hfs. reflexivity.
Qed.

Lemma send_chunks_accepted (k : ref) (chunks : list string) :
  forall w,
    chunks <> [] ->
    forallb decodes chunks = true ->
    socket_accepts (get_socket w k) (length chunks) = true ->
    send_chunks k chunks w =
    (Returns tt,
     set_sockets
       <[k := socket_after_sends (get_socket w k)
                (map InputAudioBufferAppend chunks)]> w).
Proof.
  induction chunks as [| chunk rest IH]; intros w Hne Hdec Hacc; [congruence |].
  cbn [forallb] in Hdec. apply andb_prop in Hdec as [Hchunk Hrest].
  cbn [length] in Hacc.
  pose proof (socket_accepts_S _ _ Hacc) as (Hopen & _ & Hacc').
  assert (Hacc1 : socket_accepts (get_socket w k) 1 = true).
  { clear -Hacc. unfold socket_accepts in *.
    destruct (sock_closed _); [discriminate |].
    destruct (sock_faults _) as [| [|] fs]; cbn in *; try discriminate; reflexivity. }
  cbn [send_chunks]. unfold decodes in Hchunk.
  destruct (b64decode chunk) as [audio_bytes |]; [| discriminate].
  cbn [lift]. rewrite (bind_returns (ret audio_bytes) _ w w audio_bytes eq_refl).
  unfold sock_send at 1.
  rewrite (bind_returns _ _ _ _ _ (sock_op_accepted k _ w Hacc1)).
  destruct rest as [| chunk' rest'].
  - reflexivity.
  - rewrite IH; [| discriminate | exact Hrest |].
    + rewrite put_socket_twice, get_socket_put.
      unfold socket_after_sends.
      cbn [map length sock_sent sock_closed sock_faults].
      rewrite <- app_assoc. cbn [app].
      destruct (sock_faults (get_socket w k)); reflexivity.
    + rewrite get_socket_put. exact Hacc'.
Qed.

(** ** What a coroutine leaves alone *)

Lemma registries_kept_refl (w : World) : registries_kept w w.
Proof. repeat split. Qed.

Lemma registries_kept_trans (w1 w2 w3 : World) :
  registries_kept w1 w2 -> registries_kept w2 w3 -> registries_kept w1 w3.
Proof.
  intros (A1 & A2 & A3 & A4) (B1 & B2 & B3 & B4).
  repeat split; congruence.
Qed.

Lemma keeps_registries_bind {A B} (c : M A) (k : A -> M B) :
  keeps_registries c -> (forall a, keeps_registries (k a)) ->
  keeps_registries (bind c k).
Proof.
  intros Hc Hk w. unfold bind. specialize (Hc w).
  destruct (c w) as [[a | e |] w1]; cbn [snd] in *; try exact Hc.
  eapply registries_kept_trans; [exact Hc | apply Hk].
Qed.

Lemma keeps_registries_ret {A} (a : A) : keeps_registries (ret a).
Proof. intros w. apply registries_kept_refl. Qed.

Lemma keeps_registries_raise {A} (e : exn) : keeps_registries (@raise A e).
Proof. intros w. apply registries_kept_refl. Qed.

Lemma keeps_registries_lift {A} (r : result A) : keeps_registries (lift r).
Proof. destruct r; [apply keeps_registries_ret | apply keeps_registries_raise]. Qed.

Lemma keeps_registries_gets {A} (f : World -> A) : keeps_registries (gets f).
Proof. intros w. apply registries_kept_refl. Qed.

Lemma keeps_registries_modify (f : World -> World) :
  (forall w, registries_kept w (f w)) -> keeps_registries (modify f).
Proof. intros Hf w. apply Hf. Qed.

Lemma keeps_registries_try_except {A} (body : M A) (handler : exn -> M A) :
  keeps_registries body -> (forall e, keeps_registries (handler e)) ->
  keeps_registries (try_except_Exception body handler).
Proof.
  intros Hb Hh w. unfold try_except_Exception. specialize (Hb w).
  destruct (body w) as [[a | e |] w1]; cbn [snd] in *; try exact Hb.
  eapply registries_kept_trans; [exact Hb | apply Hh].
Qed.

Lemma keeps_registries_try_all (body : M unit) :
  keeps_registries body -> keeps_registries (try_except_all body).
Proof.
  intros Hb w. unfold try_except_all. specialize (Hb w).
  destruct (body w) as [r w1]. exact Hb.
Qed.

Lemma keeps_registries_try_finally {A} (body : M A) (cleanup : M unit) :
  keeps_registries body -> keeps_registries cleanup ->
  keeps_registries (try_finally body cleanup).
Proof.
  intros Hb Hc w. unfold try_finally. specialize (Hb w).
  destruct (body w) as [r w1]. specialize (Hc w1).
  destruct (cleanup w1) as [[u | e |] w2]; cbn [snd] in *;
    eapply registries_kept_trans; eauto.
Qed.

Lemma keeps_registries_sock_op (k : ref) (effect : Socket -> Socket) :
  keeps_registries (sock_op k effect).
Proof.
  intros w. unfold sock_op. cbv zeta.
  destruct (sock_closed (get_socket w k)); [apply registries_kept_refl |].
  destruct (sock_faults (get_socket w k)) as [| [|] fs]; repeat split.
Qed.

Lemma keeps_registries_deref (l : ref) : keeps_registries (deref l).
Proof.
  intros w. unfold deref.
  destruct (session_objects w !! l); apply registries_kept_refl.
Qed.

Lemma keeps_registries_update_session (l : ref) f :
  keeps_registries (update_session l f).
Proof.
  apply keeps_registries_bind; [apply keeps_registries_deref |].
  intros s. apply keeps_registries_modify. intros w. repeat split.
Qed.

Lemma keeps_registries_send_chunks (k : ref) (chunks : list string) :
  keeps_registries (send_chunks k chunks).
Proof.
  induction chunks as [| chunk rest IH]; [apply keeps_registries_ret |].
  cbn [send_chunks].
  apply keeps_registries_bind; [apply keeps_registries_lift |]. intros _.
  apply keeps_registries_bind; [apply keeps_registries_sock_op |]. intros _.
  exact IH.
Qed.

Lemma keeps_registries_flush (stream_sid : string) (l : ref) :
  keeps_registries (_flush_audio_buffer stream_sid l).
Proof.
  apply keeps_registries_bind; [apply keeps_registries_deref |]. intros s.
  destruct (pending_samples s <? MIN_COMMIT_SAMPLES); [apply keeps_registries_ret |].
  destruct (audio_buffer s) eqn:Eb; [apply keeps_registries_ret |].
  apply keeps_registries_bind; [apply keeps_registries_send_chunks |]. intros _.
  apply keeps_registries_update_session.
Qed.

Lemma keeps_registries_task_cancel (t : ref) : keeps_registries (task_cancel t).
Proof. apply keeps_registries_modify. intros w. repeat split. Qed.

Lemma keeps_registries_debounced_flush (t : ref) :
  keeps_registries (_debounced_flush t).
Proof.
  intros w. unfold _debounced_flush.
  destruct (tasks w !! t) as [tk |]; [| apply registries_kept_refl].
  destruct (task_state tk).
  - pose proof (keeps_registries_try_finally
                  (sleep ;; _flush_audio_buffer (task_stream_sid tk) (task_session tk))
                  (update_session (task_session tk) (with_commit_task None))) as H.
    specialize (H ltac:(apply keeps_registries_bind;
                        [apply keeps_registries_ret
                        | intros _; apply keeps_registries_flush])
                  (keeps_registries_update_session _ _) w).
    destruct (try_finally _ _ w) as [r w1]. exact H.
  - pose proof (keeps_registries_update_session (task_session tk)
                  (with_commit_task None) w) as H.
    destruct (update_session _ _ w) as [r w1]. exact H.
  - apply registries_kept_refl.
Qed.

Lemma keeps_session_objects_sock_op (k : ref) (effect : Socket -> Socket) :
  keeps_session_objects (sock_op k effect).
Proof.
  intros w. unfold sock_op. cbv zeta.
  destruct (sock_closed (get_socket w k)); [reflexivity |].
  destruct (sock_faults (get_socket w k)) as [| [|] fs]; reflexivity.
Qed.

Lemma keeps_session_objects_send_chunks (k : ref) (chunks : list string) :
  keeps_session_objects (send_chunks k chunks).
Proof.
  induction chunks as [| chunk rest IH]; intros w; [reflexivity |].
  cbn [send_chunks]. unfold bind at 1.
  destruct (b64decode chunk) as [audio_bytes | e]; cbn [lift]; [| reflexivity].
  unfold ret, bind. unfold sock_send.
  pose proof (keeps_session_objects_sock_op k
    (fun sk => mkSocket (sock_sent sk ++ [InputAudioBufferAppend chunk])
                        (sock_closed sk) (sock_faults sk)) w) as Hop.
  destruct (sock_op k _ w) as [[u | e |] w1]; cbn [snd] in *; try exact Hop.
  rewrite IH. exact Hop.
Qed.

Lemma update_same (l : ref) (s : RealtimeSession) (w : World) :
  session_objects w !! l = Some s -> set_session_objects <[l := s]> w = w.
Proof.
  intros H. unfold set_session_objects. rewrite insert_id by exact H.
  apply World_eta.
Qed.

Lemma with_audio_same (s : RealtimeSession) :
  with_audio (audio_buffer s) (pending_samples s) s = s.
Proof. destruct s; reflexivity. Qed.

(** [_flush_audio_buffer] below the threshold. *)
Lemma flush_below_threshold (stream_sid : string) (l : ref) (w : World)
      (s : RealtimeSession) :
  session_objects w !! l = Some s ->
  pending_samples s < MIN_COMMIT_SAMPLES ->
  _flush_audio_buffer stream_sid l w = (Returns tt, w).
Proof.
  intros Hs Hlow. unfold _flush_audio_buffer.
  rewrite (bind_returns _ _ _ _ _ (deref_some l w s Hs)).
  apply Z.ltb_lt in Hlow. rewrite Hlow. reflexivity.
Qed.


Lemma decoded_samples_nonneg (chunk : string) : 0 <= decoded_samples chunk.
Proof.
  unfold decoded_samples. destruct (b64decode chunk); [| lia].
  apply Z.div_pos; lia.
Qed.

Lemma total_samples_nonneg (chunks : list string) : 0 <= total_samples chunks.
Proof.
  induction chunks as [| chunk rest IH]; [cbn; lia |].
  change (total_samples (chunk :: rest))
    with (decoded_samples chunk + total_samples rest).
  pose proof (decoded_samples_nonneg chunk). lia.
Qed.

(** One [send_audio_chunk] that stays below the threshold. *)
Lemma send_audio_chunk_below (stream_sid chunk : string) (l : ref) (w : World)
      (s : RealtimeSession) :
  _sessions w !! stream_sid = Some l ->
  session_objects w !! l = Some s ->
  pending_samples s + decoded_samples chunk < MIN_COMMIT_SAMPLES ->
  send_audio_chunk stream_sid chunk w =
  (Returns tt,
   set_session_objects
     <[l := with_audio (audio_buffer s ++ List.filter decodes [chunk])
                       (pending_samples s + decoded_samples chunk) s]> w).
Proof.
  intros Hreg Hs Hlow. unfold send_audio_chunk.
  rewrite (bind_returns (gets _) _ w w (Some l))
    by (unfold gets; rewrite Hreg; reflexivity).
  replace (List.filter decodes [chunk]) with (if decodes chunk then [chunk] else [])
    by (cbn [List.filter]; destruct (decodes chunk); reflexivity).
  unfold decoded_samples, decodes in *.
  pose proof (Base64Facts.b64decode_raises chunk) as Hexn.
  destruct (b64decode chunk) as [audio_bytes | e].
  - rewrite (bind_returns _ _ _ _ _ (update_session_some l _ w s Hs)).
    rewrite (bind_returns _ _ _ _ _ (deref_some l _ _ (lookup_updated l _ w))).
    cbn [pending_samples with_audio].
    apply Z.leb_gt in Hlow. rewrite Hlow. reflexivity.
  - rewrite (Hexn e eq_refl). unfold skip, ret. f_equal.
    rewrite app_nil_r, Z.add_0_r, with_audio_same.
    symmetry. apply update_same. exact Hs.
Qed.

Lemma send_audio_chunks_below (stream_sid : string) (l : ref) (chunks : list string) :
  forall (w : World) (s : RealtimeSession),
    _sessions w !! stream_sid = Some l ->
    session_objects w !! l = Some s ->
    pending_samples s + total_samples chunks < MIN_COMMIT_SAMPLES ->
    send_audio_chunks stream_sid chunks w =
    (Returns tt,
     set_session_objects
       <[l := with_audio (audio_buffer s ++ List.filter decodes chunks)
                         (pending_samples s + total_samples chunks) s]> w).
Proof.
  induction chunks as [| chunk rest IH]; intros w s Hreg Hs Hlow.
  - cbn. unfold skip, ret. f_equal.
    rewrite app_nil_r, Z.add_0_r, with_audio_same.
    symmetry. apply update_same. exact Hs.
  - change (total_samples (chunk :: rest))
      with (decoded_samples chunk + total_samples rest) in *.
    cbn [send_audio_chunks].
    pose proof (total_samples_nonneg rest) as Hrest.
    rewrite (bind_returns _ _ _ _ _
               (send_audio_chunk_below stream_sid chunk l w s Hreg Hs ltac:(lia))).
    erewrite (IH (set_session_objects _ w) _ Hreg (lookup_updated l _ w))
      by (cbn [pending_samples with_audio]; lia).
    rewrite update_update. f_equal. f_equal. f_equal.
    cbn [audio_buffer pending_samples with_audio websocket is_waiting_response
         transcript_buffer last_commit_request commit_task session_updated].
    unfold with_audio.
    cbn [audio_buffer pending_samples websocket is_waiting_response
         transcript_buffer last_commit_request commit_task session_updated].
    rewrite <- app_assoc, Z.add_assoc.
    replace (List.filter decodes [chunk] ++ List.filter decodes rest)
      with (List.filter decodes (chunk :: rest))
      by (cbn [List.filter]; destruct (decodes chunk); reflexivity).
    reflexivity.
Qed.

(** C2.  On a registered stream whose session object is [s]: successive
    calls of [send_audio_chunk] whose decoded samples, added to
    pending_samples, stay strictly below 2400 all return, and change nothing
    but the buffer and the counter of the session: no task is created
    (no flush is scheduled), commit_task is what it was, and no socket
    receives anything (no flush is performed).  And [_flush_audio_buffer]
    on a session whose pending_samples is below 2400 returns with the state
    as it was: buffer and counter unchanged, nothing sent. *)
Theorem below_threshold_no_flush
    (stream_sid : string) (l : ref) (w : World) (s : RealtimeSession) :
  _sessions w !! stream_sid = Some l ->
  session_objects w !! l = Some s ->
  (forall chunks,
      pending_samples s + total_samples chunks < MIN_COMMIT_SAMPLES ->
      exists w',
        send_audio_chunks stream_sid chunks w = (Returns tt, w') /\
        w' = set_session_objects
               <[l := with_audio (audio_buffer s ++ List.filter decodes chunks)
                                 (pending_samples s + total_samples chunks) s]> w /\
        tasks w' = tasks w /\
        sockets w' = sockets w /\
        (commit_task <$> session_objects w' !! l) = Some (commit_task s))
  /\
  (pending_samples s < MIN_COMMIT_SAMPLES ->
   _flush_audio_buffer stream_sid l w = (Returns tt, w)).
Proof.
  intros Hreg Hs. split.
  - intros chunks Hlow. eexists. split; [| split; [reflexivity |]].
    + apply (send_audio_chunks_below stream_sid l chunks w s Hreg Hs Hlow).
    + cbn. rewrite lookup_insert_eq. repeat split.
  - apply flush_below_threshold. exact Hs.
Qed.

(** What [send_audio_chunk] does to the buffer and the counter, on either
    side of the threshold: a chunk that decodes is appended and counted, any
    other chunk is dropped. *)
Lemma send_audio_chunk_buffer (stream_sid chunk : string) (l : ref) (w : World)
      (s : RealtimeSession) :
  _sessions w !! stream_sid = Some l ->
  session_objects w !! l = Some s ->
  exists s',
    session_objects (snd (send_audio_chunk stream_sid chunk w)) !! l = Some s' /\
    audio_buffer s' = audio_buffer s ++ List.filter decodes [chunk] /\
    pending_samples s' = pending_samples s + decoded_samples chunk.
Proof.
  intros Hreg Hs.
  destruct (Z_lt_ge_dec (pending_samples s + decoded_samples chunk) MIN_COMMIT_SAMPLES)
    as [Hlow | Hhigh].
  - rewrite (send_audio_chunk_below stream_sid chunk l w s Hreg Hs Hlow).
    eexists. split; [apply lookup_updated |]. split; reflexivity.
  - unfold send_audio_chunk.
    rewrite (bind_returns (gets _) _ w w (Some l))
      by (unfold gets; rewrite Hreg; reflexivity).
    unfold decoded_samples in *. cbn [List.filter]. unfold decodes.
    pose proof (Base64Facts.b64decode_raises chunk) as Hexn.
    destruct (b64decode chunk) as [audio_bytes | e].
    + rewrite (bind_returns _ _ _ _ _ (update_session_some l _ w s Hs)).
      rewrite (bind_returns _ _ _ _ _ (deref_some l _ _ (lookup_updated l _ w))).
      cbn [pending_samples with_audio].
      assert (Hge : (MIN_COMMIT_SAMPLES <=?
                       pending_samples s + Z.of_nat (length audio_bytes) / 2) = true)
        by (apply Z.leb_le; lia).
      rewrite Hge.
      rewrite (bind_returns (gets loop_time) _ _ _ _ eq_refl).
      rewrite (bind_returns _ _ _ _ _
                 (update_session_some l _ _ _ (lookup_updated l _ w))).
      rewrite update_update.
      match goal with
      | |- context [bind ?c _ (set_session_objects <[l := ?s1]> w)] =>
          assert (Hmid : exists w1,
                     c (set_session_objects <[l := s1]> w) = (Returns tt, w1) /\
                     session_objects w1 !! l = Some s1)
      end.
      { cbn [commit_task with_audio].
        destruct (commit_task s) as [t |].
        - unfold bind, gets, skip, ret, task_cancel, modify.
          destruct (task_is_done _ t); eexists; (split; [reflexivity |]);
            cbn; apply lookup_insert_eq.
        - eexists. split; [reflexivity | apply lookup_updated]. }
      destruct Hmid as (w1 & Hrun & Hs1).
      rewrite (bind_returns _ _ _ _ _ Hrun).
      unfold bind at 1, create_task.
      erewrite update_session_some by (cbn; exact Hs1).
      cbn [snd]. eexists. split; [cbn; apply lookup_insert_eq |].
      split; reflexivity.
    + rewrite (Hexn e eq_refl).
      exists s. cbn [snd]. split; [exact Hs |].
      split; [symmetry; apply app_nil_r | lia].
Qed.

(** The buffer holds only chunks that decode: [send_audio_chunk] keeps it so. *)
Lemma send_audio_chunk_keeps_decodable (stream_sid chunk : string) (l : ref)
      (w : World) (s : RealtimeSession) :
  _sessions w !! stream_sid = Some l ->
  session_objects w !! l = Some s ->
  forallb decodes (audio_buffer s) = true ->
  exists s',
    session_objects (snd (send_audio_chunk stream_sid chunk w)) !! l = Some s' /\
    forallb decodes (audio_buffer s') = true.
Proof.
  intros Hreg Hs Hdec.
  destruct (send_audio_chunk_buffer stream_sid chunk l w s Hreg Hs)
    as (s' & Hs' & Hbuf & _).
  exists s'. split; [exact Hs' |].
  rewrite Hbuf, forallb_app, Hdec. cbn [List.filter andb].
  destruct (decodes chunk) eqn:E; cbn; [rewrite E |]; reflexivity.
Qed.

(** ** Teardown *)

Ltac keeps_step :=
  lazymatch goal with
  | |- keeps_registries (bind _ _) => apply keeps_registries_bind; [| intros ?]
  | |- keeps_registries (ret _) => apply keeps_registries_ret
  | |- keeps_registries (gets _) => apply keeps_registries_gets
  | |- keeps_registries (deref _) => apply keeps_registries_deref
  | |- keeps_registries (update_session _ _) => apply keeps_registries_update_session
  | |- keeps_registries (task_cancel _) => apply keeps_registries_task_cancel
  | |- keeps_registries (_debounced_flush _) => apply keeps_registries_debounced_flush
  | |- keeps_registries (_flush_audio_buffer _ _) => apply keeps_registries_flush
  | |- keeps_registries (sock_op _ _) => apply keeps_registries_sock_op
  | |- keeps_registries (try_except_all _) => apply keeps_registries_try_all
  | |- keeps_registries (try_except_Exception _ _) =>
      apply keeps_registries_try_except; [| intros ?]
  | |- keeps_registries (match ?x with _ => _ end) => destruct x
  end.

(** [close_session] after the session was popped from [_sessions]. *)
Lemma keeps_registries_close_popped (stream_sid : string) (session : option ref) :
  keeps_registries
    (match session with
     | None => skip
     | Some l =>
         s <- deref l ;;
         match commit_task s with
         | Some t =>
             done <- gets (fun w => task_is_done w t) ;;
             if done then skip
             else task_cancel t ;; try_except_all (_debounced_flush t)
         | None => skip
         end ;;
         sleep ;;
         s <- deref l ;;
         (if (MIN_COMMIT_SAMPLES <=? pending_samples s)
             && negb (Nat.eqb (length (audio_buffer s)) 0)
          then try_except_Exception (_flush_audio_buffer stream_sid l) (fun _ => skip)
          else skip) ;;
         update_session l (with_audio [] 0) ;;
         sock_close (websocket s)
     end).
Proof.
  destruct session as [l |]; [| apply keeps_registries_ret].
  unfold sock_close, sleep, skip.
  repeat keeps_step.
Qed.

Lemma close_session_registries (stream_sid : string) (w : World) :
  _sessions (snd (close_session stream_sid w)) = delete stream_sid (_sessions w) /\
  _session_context (snd (close_session stream_sid w)) = _session_context w /\
  _twilio_connections (snd (close_session stream_sid w)) = _twilio_connections w /\
  _stream_audio_config (snd (close_session stream_sid w)) = _stream_audio_config w.
Proof.
  unfold close_session. unfold bind at 1, gets. unfold bind at 1, modify.
  exact (keeps_registries_close_popped stream_sid (_sessions w !! stream_sid)
           (set_sessions (delete stream_sid) w)).
Qed.

Lemma terminate_session_unfold (stream_sid : string) (w : World) :
  terminate_session stream_sid w =
  (fst (close_session stream_sid w),
   terminate_cleanup stream_sid (snd (close_session stream_sid w))).
Proof.
  unfold terminate_session, try_finally.
  destruct (close_session stream_sid w) as [r w1]. reflexivity.
Qed.

(** [terminate_session] on a stream id that no registry holds. *)
Lemma terminate_session_absent (stream_sid : string) (w : World) :
  _sessions w !! stream_sid = None ->
  _twilio_connections w !! stream_sid = None ->
  _stream_audio_config w !! stream_sid = None ->
  _session_context w !! stream_sid = None ->
  terminate_session stream_sid w = (Returns tt, w).
Proof.
  intros H1 H2 H3 H4. rewrite terminate_session_unfold.
  assert (Hclose : close_session stream_sid w = (Returns tt, w)).
  { unfold close_session, bind, gets, modify. rewrite H1.
    unfold skip, ret. f_equal. unfold set_sessions.
    rewrite delete_id by exact H1. apply World_eta. }
  rewrite Hclose. cbn [fst snd]. f_equal.
  unfold terminate_cleanup, set_session_context, set_stream_audio_config,
    set_twilio_connections. cbn.
  rewrite !delete_id by assumption. apply World_eta.
Qed.

(** C5 (amended).  Whatever [close_session] does, also when it raises,
    [terminate_session] leaves the stream id in none of the
    telephony-connection registry, the audio-config registry, the
    conversation-context store and the AI-session map, the other entries
    being kept.  The cleanup is a [finally] block: the outcome of
    [terminate_session] is the outcome of [close_session], so an exception
    of the close reaches the caller after the cleanup. *)
Theorem terminate_session_cleans_up_then_propagates
    (stream_sid : string) (w : World) :
  fst (terminate_session stream_sid w) = fst (close_session stream_sid w) /\
  _twilio_connections (snd (terminate_session stream_sid w))
    = delete stream_sid (_twilio_connections w) /\
  _stream_audio_config (snd (terminate_session stream_sid w))
    = delete stream_sid (_stream_audio_config w) /\
  _session_context (snd (terminate_session stream_sid w))
    = delete stream_sid (_session_context w) /\
  _sessions (snd (terminate_session stream_sid w))
    = delete stream_sid (_sessions w).
Proof.
  rewrite terminate_session_unfold. cbn [fst snd].
  destruct (close_session_registries stream_sid w) as (Hs & Hc & Ht & Ha).
  split; [reflexivity |].
  unfold terminate_cleanup, set_session_context, set_stream_audio_config,
    set_twilio_connections.
  cbn [_sessions _session_context _twilio_connections _stream_audio_config].
  rewrite Hs, Hc, Ht, Ha. repeat split.
Qed.

(** C6.  A second [terminate_session] on the stream id, run on the state
    that a first one left (whatever the outcome of the first was), returns
    normally and leaves that state as it is: registries, AI-session map,
    context store and all the rest. *)
Theorem terminate_session_twice (stream_sid : string) (w : World) :
  terminate_session stream_sid (snd (terminate_session stream_sid w))
  = (Returns tt, snd (terminate_session stream_sid w)).
Proof.
  apply terminate_session_absent;
    rewrite terminate_session_unfold; cbn [snd];
    destruct (close_session_registries stream_sid w) as (Hs & Hc & Ht & Ha);
    unfold terminate_cleanup, set_session_context, set_stream_audio_config,
      set_twilio_connections;
    cbn [_sessions _session_context _twilio_connections _stream_audio_config];
    rewrite ?Hs, ?Hc, ?Ht, ?Ha; apply lookup_delete_eq.
Qed.

(** ** Audio configuration *)

(** C10.  [register_stream] stores audio/x-mulaw and 8000 for the stream.
    On a registered stream, [configure_stream_audio] returns and changes
    nothing but the stream's configuration, where a field gets the given
    value when that value is truthy and keeps the stored one when it is
    falsy ([None] or the empty string; [None] or 0); a stored sample rate
    that is not 0 stays different from 0. *)
Theorem configure_stream_audio_truthy_only
    (stream_sid : string) (encoding : option string) (sample_rate : option Z)
    (w : World) :
  (forall websocket,
      _stream_audio_config (snd (register_stream stream_sid websocket w)) !! stream_sid
      = Some (mkAudioConfig "audio/x-mulaw" 8000)) /\
  (forall cfg,
      _stream_audio_config w !! stream_sid = Some cfg ->
      exists cfg',
        configure_stream_audio stream_sid encoding sample_rate w
        = (Returns tt, set_stream_audio_config <[stream_sid := cfg']> w) /\
        (encoding = None \/ encoding = Some "" ->
         cfg_encoding cfg' = cfg_encoding cfg) /\
        (forall e, encoding = Some e -> e <> "" -> cfg_encoding cfg' = e) /\
        (sample_rate = None \/ sample_rate = Some 0 ->
         cfg_sample_rate cfg' = cfg_sample_rate cfg) /\
        (forall r, sample_rate = Some r -> r <> 0 -> cfg_sample_rate cfg' = r) /\
        (cfg_sample_rate cfg <> 0 -> cfg_sample_rate cfg' <> 0)).
Proof.
  split.
  - intros websocket. cbn. apply lookup_insert_eq.
  - intros cfg Hcfg. unfold configure_stream_audio.
    rewrite (bind_returns (gets _) _ w w (Some cfg))
      by (unfold gets; rewrite Hcfg; reflexivity).
    eexists. split; [reflexivity |].
    repeat split.
    + intros [-> | ->]; destruct sample_rate as [r |]; cbn;
        try destruct (r =? 0); reflexivity.
    + intros e -> Hne. destruct e as [| c e']; [congruence |].
      destruct sample_rate as [r |]; cbn; try destruct (r =? 0); reflexivity.
    + intros [-> | ->]; destruct encoding as [e |]; cbn;
        try destruct (nonempty e); reflexivity.
    + intros r -> Hne. apply Z.eqb_neq in Hne. rewrite Hne.
      reflexivity.
    + intros Hold. destruct sample_rate as [r |].
      * destruct (Z.eqb_spec r 0) as [-> | Hr].
        -- destruct encoding as [e |]; cbn; try destruct (nonempty e); exact Hold.
        -- cbn. exact Hr.
      * destruct encoding as [e |]; cbn; try destruct (nonempty e); exact Hold.
Qed.

(** ** The claims at concrete inputs *)

(** The debounce scenario: chunks of 1000, 1000 and 600 samples.  No task
    exists after the first two; the third schedules one flush; when the
    loop runs it, the three chunks are sent in order and the counter is 0. *)
Example debounce_coalescing :
  tasks (snd (send_audio_chunks "CA123" [silence_b64 2000; silence_b64 2000]
                idle_world)) = []
  /\ snd (send_audio_chunks "CA123"
            [silence_b64 2000; silence_b64 2000; silence_b64 1200] idle_world)
     = loaded_world
  /\ get_socket (snd (_debounced_flush 0%nat loaded_world)) 0%nat
     = mkSocket [InputAudioBufferAppend (silence_b64 2000);
                 InputAudioBufferAppend (silence_b64 2000);
                 InputAudioBufferAppend (silence_b64 1200)] false []
  /\ session_objects (snd (_debounced_flush 0%nat loaded_world)) !! 0%nat
     = Some (mkRealtimeSession 0%nat false "" [] 0 0 None false).
Proof. repeat split; vm_compute; reflexivity. Qed.


Lemma below_threshold_no_flush_witness :
  (exists w',
      send_audio_chunks "CA123" [silence_b64 2000; "A"; silence_b64 2000] idle_world
      = (Returns tt, w') /\
      tasks w' = [] /\ sockets w' = sockets idle_world) /\
  _flush_audio_buffer "CA123" 0%nat idle_world = (Returns tt, idle_world).
Proof.
  destruct (below_threshold_no_flush "CA123" 0%nat idle_world (new_session 0%nat))
    as [Hsend Hflush].
  - vm_compute. reflexivity.
  - vm_compute. reflexivity.
  - split.
    + destruct (Hsend [silence_b64 2000; "A"; silence_b64 2000])
        as (w' & Hrun & _ & Htasks & Hsockets & _).
      * vm_compute. reflexivity.
      * exists w'. split; [exact Hrun |]. split; [exact Htasks | exact Hsockets].
    + apply Hflush. vm_compute. reflexivity.
Defined.


Lemma unrecognized_event_is_ignored_witness :
  handle_event ratecv_refusing "CA123" 0%nat
    (mkPayload (Some "rate_limits.updated") None) idle_world
  = (Returns tt, idle_world).
Proof.
  apply unrecognized_event_is_ignored.
  intros t Ht Hin. injection Ht as <-.
  vm_compute in Hin. intuition discriminate.
Defined.

Lemma unsupported_encoding_is_dropped_witness :
  convert_audio_to_pcm16 ratecv_refusing (b64encode [x00; x01; x02]) "audio/opus"
    8000 16000
  = Raise (ValueError "Unsupported audio encoding: audio/opus") /\
  (exists pcm16_bytes,
      decode_by_encoding [x00; x01; x02] "audio/x-alaw" = Ok pcm16_bytes) /\
  forward_media_chunk ratecv_refusing "CA123" (b64encode [x00; x01; x02])
    (set_stream_audio_config (fun _ => {["CA123" := mkAudioConfig "audio/opus" 8000]})
       idle_world)
  = (Returns tt,
     set_stream_audio_config (fun _ => {["CA123" := mkAudioConfig "audio/opus" 8000]})
       idle_world).
Proof.
  destruct (unsupported_encoding_is_dropped ratecv_refusing) as (Hraise & Hok & Hdrop).
  assert (Hout : ~ In "audio/opus" SUPPORTED_ENCODINGS).
  { intros Hin. vm_compute in Hin. intuition discriminate. }
  split; [| split].
  - apply Hraise. exact Hout.
  - apply Hok. vm_compute. tauto.
  - apply (Hdrop "CA123" _ (mkAudioConfig "audio/opus" 8000)).
    + vm_compute. reflexivity.
    + exact Hout.
Defined.

Lemma unknown_stream_is_noop_witness :
  send_audio_chunk "CA999" (silence_b64 2000) idle_world = (Returns tt, idle_world) /\
  forward_media_chunk ratecv_refusing "CA999" (silence_b64 2000) idle_world
  = (Returns tt, idle_world) /\
  send_audio_to_twilio ratecv_refusing "CA999" (silence_b64 2000) idle_world
  = (Returns tt, idle_world) /\
  configure_stream_audio "CA999" (Some "audio/x-alaw") (Some 16000) idle_world
  = (Returns tt, idle_world).
Proof.
  destruct (unknown_stream_is_noop ratecv_refusing "CA999" idle_world)
    as (H1 & H2 & H3 & H4).
  split; [| split; [| split]].
  - apply H1. vm_compute. reflexivity.
  - apply H2. vm_compute. reflexivity.
  - apply H3. vm_compute. reflexivity.
  - apply H4. vm_compute. reflexivity.
Defined.

Lemma configure_stream_audio_truthy_only_witness :
  exists cfg',
    configure_stream_audio "CA123" (Some "") (Some 0) idle_world
    = (Returns tt, set_stream_audio_config <["CA123" := cfg']> idle_world) /\
    cfg_encoding cfg' = "audio/x-mulaw" /\ cfg_sample_rate cfg' = 8000.
Proof.
  destruct (configure_stream_audio_truthy_only "CA123" (Some "") (Some 0) idle_world)
    as [_ Hcfg].
  destruct (Hcfg (mkAudioConfig "audio/x-mulaw" 8000))
    as (cfg' & Hrun & Henc & _ & Hrate & _ & _).
  - vm_compute. reflexivity.
  - exists cfg'. split; [exact Hrun |]. split.
    + rewrite Henc by (right; reflexivity). reflexivity.
    + rewrite Hrate by (right; reflexivity). reflexivity.
Defined.

(** C5, as the claim has it, fails: when the close of the AI connection
    raises, [close_session] raises, and so does [terminate_session], after
    its cleanup. *)
Lemma terminate_session_propagates_close_error :
  fst (close_session "CA123" failing_world) = Raises ConnectionClosed /\
  fst (terminate_session "CA123" failing_world) = Raises ConnectionClosed /\
  _twilio_connections (snd (terminate_session "CA123" failing_world)) !! "CA123"
  = None.
Proof. repeat split; vm_compute; reflexivity. Qed.


(** ** What a coroutine preserves, in general *)

Section Preserves.

Context {X : Type} (f : World -> X).

Lemma preserves_ret {A} (a : A) : preserves f (ret a).
Proof. intros w. reflexivity. Qed.

Lemma preserves_raise {A} (e : exn) : preserves f (@raise A e).
Proof. intros w. reflexivity. Qed.

Lemma preserves_lift {A} (r : result A) : preserves f (lift r).
Proof. destruct r; intros w; reflexivity. Qed.

Lemma preserves_gets {A} (g : World -> A) : preserves f (gets g).
Proof. intros w. reflexivity. Qed.

Lemma preserves_modify (g : World -> World) :
  (forall w, f (g w) = f w) -> preserves f (modify g).
Proof. intros Hg w. apply Hg. Qed.

Lemma preserves_bind {A B} (c : M A) (k : A -> M B) :
  preserves f c -> (forall a, preserves f (k a)) -> preserves f (bind c k).
Proof.
  intros Hc Hk w. unfold bind. specialize (Hc w).
  destruct (c w) as [[a | e |] w1]; cbn [snd] in *; try exact Hc.
  rewrite Hk. exact Hc.
Qed.

Lemma preserves_try_except {A} (body : M A) (handler : exn -> M A) :
  preserves f body -> (forall e, preserves f (handler e)) ->
  preserves f (try_except_Exception body handler).
Proof.
  intros Hb Hh w. unfold try_except_Exception. specialize (Hb w).
  destruct (body w) as [[a | e |] w1]; cbn [snd] in *; try exact Hb.
  rewrite Hh. exact Hb.
Qed.

Lemma preserves_try_all (body : M unit) :
  preserves f body -> preserves f (try_except_all body).
Proof.
  intros Hb w. unfold try_except_all. specialize (Hb w).
  destruct (body w) as [r w1]. exact Hb.
Qed.

Lemma preserves_try_finally {A} (body : M A) (cleanup : M unit) :
  preserves f body -> preserves f cleanup -> preserves f (try_finally body cleanup).
Proof.
  intros Hb Hc w. unfold try_finally. specialize (Hb w).
  destruct (body w) as [r w1]. specialize (Hc w1).
  destruct (cleanup w1) as [[u | e |] w2]; cbn [snd] in *; congruence.
Qed.

(** Operations on sockets, for a view that does not look at the sockets. *)
Lemma preserves_sock_op (k : ref) (effect : Socket -> Socket) :
  (forall g w, f (set_sockets g w) = f w) -> preserves f (sock_op k effect).
Proof.
  intros Hf w. unfold sock_op. cbv zeta.
  destruct (sock_closed (get_socket w k)); [reflexivity |].
  destruct (sock_faults (get_socket w k)) as [| [|] fs]; cbn [snd]; apply Hf.
Qed.

Lemma preserves_deref (l : ref) : preserves f (deref l).
Proof. intros w. unfold deref. destruct (session_objects w !! l); reflexivity. Qed.

(** An assignment to a field of a session object, for a view that the
    assignment does not show in. *)
Lemma preserves_update_session (l : ref) (g : RealtimeSession -> RealtimeSession) :
  (forall w s, session_objects w !! l = Some s ->
               f (set_session_objects <[l := g s]> w) = f w) ->
  preserves f (update_session l g).
Proof.
  intros Hf w. unfold update_session, bind, deref, modify.
  destruct (session_objects w !! l) as [s |] eqn:Es; cbn [snd]; [| reflexivity].
  apply Hf. exact Es.
Qed.

Lemma preserves_send_chunks (k : ref) (chunks : list string) :
  (forall g w, f (set_sockets g w) = f w) -> preserves f (send_chunks k chunks).
Proof.
  intros Hf. induction chunks as [| chunk rest IH]; [apply preserves_ret |].
  cbn [send_chunks].
  apply preserves_bind; [apply preserves_lift |]. intros _.
  apply preserves_bind; [apply preserves_sock_op; exact Hf |]. intros _.
  exact IH.
Qed.

End Preserves.

(** The same for [CancelledError]. *)

Lemma never_cancelled_ret {A} (a : A) : never_cancelled (ret a).
Proof. intros w. discriminate. Qed.

Lemma never_cancelled_raise {A} (e : exn) : never_cancelled (@raise A e).
Proof. intros w. discriminate. Qed.

Lemma never_cancelled_lift {A} (r : result A) : never_cancelled (lift r).
Proof. destruct r; intros w; discriminate. Qed.

Lemma never_cancelled_gets {A} (g : World -> A) : never_cancelled (gets g).
Proof. intros w. discriminate. Qed.

Lemma never_cancelled_modify (g : World -> World) : never_cancelled (modify g).
Proof. intros w. discriminate. Qed.

Lemma never_cancelled_bind {A B} (c : M A) (k : A -> M B) :
  never_cancelled c -> (forall a, never_cancelled (k a)) -> never_cancelled (bind c k).
Proof.
  intros Hc Hk w. unfold bind. specialize (Hc w).
  destruct (c w) as [[a | e |] w1]; cbn [fst] in *;
    [apply Hk | discriminate | congruence].
Qed.

Lemma never_cancelled_try_except {A} (body : M A) (handler : exn -> M A) :
  never_cancelled body -> (forall e, never_cancelled (handler e)) ->
  never_cancelled (try_except_Exception body handler).
Proof.
  intros Hb Hh w. unfold try_except_Exception. specialize (Hb w).
  destruct (body w) as [[a | e |] w1]; cbn [fst] in *;
    [discriminate | apply Hh | exact Hb].
Qed.

Lemma never_cancelled_try_all (body : M unit) : never_cancelled (try_except_all body).
Proof. intros w. unfold try_except_all. destruct (body w). discriminate. Qed.

Lemma never_cancelled_sock_op (k : ref) (effect : Socket -> Socket) :
  never_cancelled (sock_op k effect).
Proof.
  intros w. unfold sock_op. cbv zeta.
  destruct (sock_closed (get_socket w k)); [discriminate |].
  destruct (sock_faults (get_socket w k)) as [| [|] fs]; discriminate.
Qed.

Lemma never_cancelled_deref (l : ref) : never_cancelled (deref l).
Proof. intros w. unfold deref. destruct (session_objects w !! l); discriminate. Qed.

Lemma never_cancelled_update_session (l : ref) g :
  never_cancelled (update_session l g).
Proof.
  apply never_cancelled_bind; [apply never_cancelled_deref |].
  intros s. apply never_cancelled_modify.
Qed.

Lemma never_cancelled_send_chunks (k : ref) (chunks : list string) :
  never_cancelled (send_chunks k chunks).
Proof.
  induction chunks as [| chunk rest IH]; [apply never_cancelled_ret |].
  cbn [send_chunks].
  apply never_cancelled_bind; [apply never_cancelled_lift |]. intros _.
  apply never_cancelled_bind; [apply never_cancelled_sock_op |]. intros _.
  exact IH.
Qed.

Lemma never_cancelled_flush (stream_sid : string) (l : ref) :
  never_cancelled (_flush_audio_buffer stream_sid l).
Proof.
  apply never_cancelled_bind; [apply never_cancelled_deref |]. intros s.
  destruct (pending_samples s <? MIN_COMMIT_SAMPLES); [apply never_cancelled_ret |].
  destruct (audio_buffer s) eqn:Eb; [apply never_cancelled_ret |].
  apply never_cancelled_bind; [apply never_cancelled_send_chunks |]. intros _.
  apply never_cancelled_update_session.
Qed.

Ltac never_cancelled_step :=
  lazymatch goal with
  | |- never_cancelled (bind _ _) => apply never_cancelled_bind; [| intros ?]
  | |- never_cancelled (ret _) => apply never_cancelled_ret
  | |- never_cancelled (raise _) => apply never_cancelled_raise
  | |- never_cancelled (lift _) => apply never_cancelled_lift
  | |- never_cancelled (gets _) => apply never_cancelled_gets
  | |- never_cancelled (modify _) => apply never_cancelled_modify
  | |- never_cancelled (deref _) => apply never_cancelled_deref
  | |- never_cancelled (update_session _ _) => apply never_cancelled_update_session
  | |- never_cancelled (_flush_audio_buffer _ _) => apply never_cancelled_flush
  | |- never_cancelled (sock_op _ _) => apply never_cancelled_sock_op
  | |- never_cancelled (try_except_all _) => apply never_cancelled_try_all
  | |- never_cancelled (try_except_Exception _ _) =>
      apply never_cancelled_try_except; [| intros ?]
  | |- never_cancelled (match ?x with _ => _ end) => destruct x
  end.


(** ** The context store *)

(** X1.  A value stored with [update_context] comes back from
    [pop_context] under the same stream id and key, whatever the default is;
    the pop leaves the stream's data as it was before the update, without
    the key, and the data of every other stream as it was. *)
Theorem pop_context_after_update (stream_sid key value default_ : string) (w : World) :
  let w1 := snd (update_context stream_sid key value w) in
  fst (pop_context stream_sid key default_ w1) = Returns value /\
  _session_context (snd (pop_context stream_sid key default_ w1)) !! stream_sid
  = Some (delete key (default ∅ (_session_context w !! stream_sid))) /\
  forall other, other <> stream_sid ->
    _session_context (snd (pop_context stream_sid key default_ w1)) !! other
    = _session_context w !! other.
Proof.
  cbv zeta.
  unfold pop_context, update_context, bind, setdefault_context, modify, ret.
  cbn [fst snd]. unfold set_session_context. cbn [_session_context].
  rewrite !lookup_insert_eq.
  change (default ∅ (Some ?m)) with m.
  rewrite !lookup_insert_eq.
  split; [reflexivity |]. split.
  - f_equal. apply delete_insert_eq.
  - intros other Hne. rewrite !lookup_insert_ne by congruence. reflexivity.
Qed.

(** X2.  [pop_context] for a key that the stream does not hold returns the
    default and changes no stored value; for a stream id that the store does
    not know it also leaves an empty entry for that stream behind. *)
Theorem pop_context_missing (stream_sid key default_ : string) (w : World) :
  default ∅ (_session_context w !! stream_sid) !! key = None ->
  fst (pop_context stream_sid key default_ w) = Returns default_ /\
  _session_context (snd (pop_context stream_sid key default_ w))
  = <[stream_sid := default ∅ (_session_context w !! stream_sid)]>
      (_session_context w) /\
  (_session_context w !! stream_sid = None ->
   _session_context (snd (pop_context stream_sid key default_ w)) !! stream_sid
   = Some ∅).
Proof.
  intros Hmiss. unfold pop_context, bind, setdefault_context, modify, ret.
  cbn [fst snd]. unfold set_session_context. cbn [_session_context].
  rewrite Hmiss, insert_insert_eq, (delete_id _ _ Hmiss).
  split; [reflexivity |]. split; [reflexivity |].
  intros Hnone. rewrite lookup_insert_eq, Hnone. reflexivity.
Qed.

Lemma strip_base_prompt : strip (base_prompt ++ newline ++ "") = base_prompt.
Proof. vm_compute. reflexivity. Qed.

(** X3.  For a stream without a text under the key "context" (a stream the
    store does not know among them), [build_system_prompt] returns the base
    prompt, with nothing after it; it keeps the data of a known stream and
    leaves an empty entry behind for an unknown one. *)
Theorem build_system_prompt_without_context (stream_sid : string) (w : World) :
  default ∅ (_session_context w !! stream_sid) !! "context" = None ->
  fst (build_system_prompt stream_sid w) = Returns base_prompt /\
  _session_context (snd (build_system_prompt stream_sid w))
  = <[stream_sid := default ∅ (_session_context w !! stream_sid)]>
      (_session_context w) /\
  (forall session_data,
      _session_context w !! stream_sid = Some session_data ->
      snd (build_system_prompt stream_sid w) = w).
Proof.
  intros Hnone. unfold build_system_prompt, bind, setdefault_context, ret.
  cbn [fst snd]. rewrite Hnone.
  change (default "" None) with "". rewrite strip_base_prompt.
  split; [reflexivity |]. split; [reflexivity |].
  intros session_data Hdata. rewrite Hdata.
  change (default ∅ (Some session_data)) with session_data.
  unfold set_session_context. rewrite insert_id by exact Hdata. apply World_eta.
Qed.


(** ** More on app/utils/audio.py *)

Lemma length_ulaw2lin (x : list byte) : length (ulaw2lin x) = (2 * length x)%nat.
Proof.
  induction x as [| uc x IH]; [reflexivity |].
  change (ulaw2lin (uc :: x)) with (bytes_of_int16 (st_ulaw2linear16 uc) ++ ulaw2lin x).
  rewrite length_app, IH. cbn [bytes_of_int16 length]. lia.
Qed.

Lemma length_alaw2lin (x : list byte) : length (alaw2lin x) = (2 * length x)%nat.
Proof.
  induction x as [| uc x IH]; [reflexivity |].
  change (alaw2lin (uc :: x)) with (bytes_of_int16 (st_alaw2linear16 uc) ++ alaw2lin x).
  rewrite length_app, IH. cbn [bytes_of_int16 length]. lia.
Qed.

Lemma decoded_samples_b64encode (bs : list byte) :
  decoded_samples (b64encode bs) = Z.of_nat (length bs) / 2.
Proof.
  unfold decoded_samples. rewrite Base64Facts.b64decode_b64encode. reflexivity.
Qed.

Lemma decodes_b64encode (bs : list byte) : decodes (b64encode bs) = true.
Proof. unfold decodes. rewrite Base64Facts.b64decode_b64encode. reflexivity. Qed.

Lemma list_ind2 {A} (P : list A -> Prop) :
  P [] -> (forall a, P [a]) -> (forall a b l, P l -> P (a :: b :: l)) ->
  forall l, P l.
Proof.
  intros H0 H1 H2. fix IH 1. intros [| a [| b l]].
  - exact H0.
  - apply H1.
  - apply H2, IH.
Qed.

(** [lin2ulaw] on whole frames and on a fragment with a byte left over. *)
Lemma lin2ulaw_even (pcm : list byte) :
  Nat.even (length pcm) = true ->
  exists mulaw, lin2ulaw pcm = Ok mulaw /\ (2 * length mulaw = length pcm)%nat.
Proof.
  induction pcm as [| lo | lo hi rest IH] using list_ind2; intros Heven.
  - exists []. split; reflexivity.
  - discriminate.
  - destruct (IH Heven) as (m & Hm & Hl).
    eexists. cbn [lin2ulaw]. rewrite Hm. split; [reflexivity |].
    cbn [length]. lia.
Qed.

Lemma lin2ulaw_odd (pcm : list byte) :
  Nat.even (length pcm) = false ->
  lin2ulaw pcm = Raise (AudioopError "not a whole number of frames").
Proof.
  induction pcm as [| lo | lo hi rest IH] using list_ind2; intros Hodd.
  - discriminate.
  - reflexivity.
  - cbn [lin2ulaw]. rewrite (IH Hodd). reflexivity.
Qed.

Section AudioFacts.

Variable ratecv : list byte -> Z -> Z -> result (list byte).

(** X4.  Raw PCM (audio/x-raw or audio/L16) at equal rates passes through
    [convert_audio_to_pcm16] untouched: a payload that decodes to the bytes
    [raw_bytes] comes back as the Base64 text of the same bytes. *)
Theorem raw_audio_passes_through
    (media_chunk_b64 encoding : string) (raw_bytes : list byte) (r : Z) :
  encoding = "audio/x-raw" \/ encoding = "audio/L16" ->
  b64decode media_chunk_b64 = Ok raw_bytes ->
  convert_audio_to_pcm16 ratecv media_chunk_b64 encoding r r
  = Ok (b64encode raw_bytes).
Proof.
  intros Henc Hdec. unfold convert_audio_to_pcm16. rewrite Hdec.
  cbn [result_bind]. rewrite Z.eqb_refl.
  destruct Henc as [-> | ->]; reflexivity.
Qed.

(** X5.  At equal rates a companded payload (mu-law or A-law) of n bytes is
    converted into PCM16 that [send_audio_chunk] counts as n samples: one
    sample per byte. *)
Theorem companded_byte_is_one_sample (x : list byte) (encoding : string) (r : Z) :
  encoding = "audio/x-mulaw" \/ encoding = "audio/x-alaw" ->
  exists pcm16_b64,
    convert_audio_to_pcm16 ratecv (b64encode x) encoding r r = Ok pcm16_b64 /\
    decodes pcm16_b64 = true /\
    decoded_samples pcm16_b64 = Z.of_nat (length x).
Proof.
  intros Henc. unfold convert_audio_to_pcm16.
  rewrite Base64Facts.b64decode_b64encode. cbn [result_bind].
  rewrite Z.eqb_refl.
  destruct Henc as [-> | ->]; cbn; eexists; (split; [reflexivity |]);
    rewrite decodes_b64encode, decoded_samples_b64encode;
    rewrite ?length_ulaw2lin, ?length_alaw2lin;
    (split; [reflexivity |]);
    rewrite Nat2Z.inj_mul, Z.mul_comm; apply Z.div_mul; lia.
Qed.

(** X6.  At equal rates [convert_pcm16_to_mulaw] turns PCM16 of 2n bytes
    into n mu-law bytes, and raises [audioop.error] on PCM16 with an odd
    number of bytes. *)
Theorem pcm16_to_mulaw_needs_whole_frames (pcm : list byte) (r : Z) :
  (Nat.even (length pcm) = true ->
   exists mulaw,
     convert_pcm16_to_mulaw ratecv (b64encode pcm) r r = Ok (b64encode mulaw) /\
     (2 * length mulaw = length pcm)%nat) /\
  (Nat.even (length pcm) = false ->
   convert_pcm16_to_mulaw ratecv (b64encode pcm) r r
   = Raise (AudioopError "not a whole number of frames")).
Proof.
  unfold convert_pcm16_to_mulaw. rewrite Base64Facts.b64decode_b64encode.
  cbn [result_bind]. rewrite Z.eqb_refl. cbn [result_bind].
  split; intros Hlen.
  - destruct (lin2ulaw_even pcm Hlen) as (mulaw & Hm & Hl).
    exists mulaw. rewrite Hm. split; [reflexivity | exact Hl].
  - rewrite (lin2ulaw_odd pcm Hlen). reflexivity.
Qed.

(** X7.  A payload that is not Base64 makes both converters raise the
    decoding error, a [ValueError], before the encoding is looked at: also
    for an unsupported encoding, and without resampling. *)
Theorem undecodable_payload_raises_first
    (payload encoding : string) (e : exn) (r1 r2 : Z) :
  b64decode payload = Raise e ->
  is_ValueError e = true /\
  convert_audio_to_pcm16 ratecv payload encoding r1 r2 = Raise e /\
  convert_pcm16_to_mulaw ratecv payload r1 r2 = Raise e.
Proof.
  intros Hdec. split; [exact (Base64Facts.b64decode_raises payload e Hdec) |].
  unfold convert_audio_to_pcm16, convert_pcm16_to_mulaw. rewrite Hdec.
  split; reflexivity.
Qed.

End AudioFacts.


(** ** More on the inbound buffer *)

Lemma send_audio_chunk_at_threshold (stream_sid chunk : string) (l : ref)
      (w : World) (s : RealtimeSession) (audio_bytes : list byte) :
  _sessions w !! stream_sid = Some l ->
  session_objects w !! l = Some s ->
  b64decode chunk = Ok audio_bytes ->
  MIN_COMMIT_SAMPLES <= pending_samples s + Z.of_nat (length audio_bytes) / 2 ->
  send_audio_chunk stream_sid chunk w =
  (Returns tt,
   set_session_objects
     <[l := with_commit_task (Some (length (tasks w)))
              (with_last_commit_request (loop_time w)
                 (with_audio (audio_buffer s ++ [chunk])
                    (pending_samples s + Z.of_nat (length audio_bytes) / 2) s))]>
     (set_tasks (fun _ => cancel_scheduled w s ++ [mkTask stream_sid l TaskPending])
        w)).
Proof.
  intros Hreg Hs Hdec Hfull. unfold send_audio_chunk.
  rewrite (bind_returns (gets _) _ w w (Some l))
    by (unfold gets; rewrite Hreg; reflexivity).
  rewrite Hdec.
  rewrite (bind_returns _ _ _ _ _ (update_session_some l _ w s Hs)).
  rewrite (bind_returns _ _ _ _ _ (deref_some l _ _ (lookup_updated l _ w))).
  cbn [pending_samples with_audio].
  apply Z.leb_le in Hfull. rewrite Hfull.
  rewrite (bind_returns (gets loop_time) _ _ _ _ eq_refl).
  rewrite (bind_returns _ _ _ _ _
             (update_session_some l _ _ _ (lookup_updated l _ w))).
  rewrite update_update. cbn [commit_task with_audio loop_time set_session_objects].
  unfold cancel_scheduled.
  destruct (commit_task s) as [t |].
  - unfold bind at 1. unfold bind at 1. unfold gets at 1.
    change (task_is_done (set_session_objects _ w) t) with (task_is_done w t).
    destruct (task_is_done w t).
    + unfold skip, ret. unfold bind, create_task.
      erewrite update_session_some by (cbn; apply lookup_insert_eq).
      f_equal. unfold set_session_objects, set_tasks. cbn.
      rewrite insert_insert_eq. reflexivity.
    + unfold task_cancel, modify. unfold bind, create_task.
      erewrite update_session_some by (cbn; apply lookup_insert_eq).
      f_equal. unfold set_session_objects, set_tasks. cbn.
      rewrite insert_insert_eq. rewrite length_alter. reflexivity.
  - unfold bind at 1. unfold skip, ret. unfold bind, create_task.
    erewrite update_session_some by (cbn; apply lookup_insert_eq).
    f_equal. unfold set_session_objects, set_tasks. cbn.
    rewrite insert_insert_eq. reflexivity.
Qed.

Lemma length_cancel_scheduled (w : World) (s : RealtimeSession) :
  length (cancel_scheduled w s) = length (tasks w).
Proof.
  unfold cancel_scheduled. destruct (commit_task s) as [t |]; [| reflexivity].
  destruct (task_is_done w t); [reflexivity | apply length_alter].
Qed.

(** X8.  When a chunk that decodes brings pending_samples to 2400 or more,
    [send_audio_chunk] returns having scheduled exactly one flush: one
    pending task for the session is appended to the tasks and commit_task
    refers to it; the task that commit_task referred to, when it was still
    pending, is now being cancelled, and every other task is as it was;
    no socket has received anything. *)
Theorem send_audio_chunk_schedules_one_flush
    (stream_sid chunk : string) (l : ref) (w : World) (s : RealtimeSession)
    (audio_bytes : list byte) :
  _sessions w !! stream_sid = Some l ->
  session_objects w !! l = Some s ->
  b64decode chunk = Ok audio_bytes ->
  MIN_COMMIT_SAMPLES <= pending_samples s + Z.of_nat (length audio_bytes) / 2 ->
  exists w',
    send_audio_chunk stream_sid chunk w = (Returns tt, w') /\
    length (tasks w') = S (length (tasks w)) /\
    tasks w' !! length (tasks w) = Some (mkTask stream_sid l TaskPending) /\
    (commit_task <$> session_objects w' !! l) = Some (Some (length (tasks w))) /\
    (forall t tk,
        commit_task s = Some t -> tasks w !! t = Some tk ->
        task_state tk = TaskPending ->
        tasks w' !! t = Some (set_task_state TaskCancelling tk)) /\
    (forall t,
        commit_task s <> Some t -> (t < length (tasks w))%nat ->
        tasks w' !! t = tasks w !! t) /\
    sockets w' = sockets w.
Proof.
  intros Hreg Hs Hdec Hfull. eexists. split.
  { apply (send_audio_chunk_at_threshold stream_sid chunk l w s audio_bytes);
      assumption. }
  cbn [tasks sockets session_objects set_session_objects set_tasks].
  pose proof (length_cancel_scheduled w s) as Hlen.
  split; [rewrite length_app, Hlen; cbn; lia |].
  split; [apply list_lookup_middle; symmetry; exact Hlen |].
  split; [rewrite lookup_insert_eq; reflexivity |].
  split; [| split; [| reflexivity]].
  - intros t tk Ht Htk Hpending.
    rewrite lookup_app_l by (rewrite Hlen; apply lookup_lt_Some in Htk; exact Htk).
    unfold cancel_scheduled, task_is_done. rewrite Ht. cbv beta iota.
    unfold ref in *. rewrite Htk, Hpending. cbv beta iota.
    rewrite list_lookup_alter_eq, Htk. cbn. rewrite Hpending. reflexivity.
  - intros t Hother Hlt.
    rewrite lookup_app_l by (rewrite Hlen; exact Hlt).
    unfold cancel_scheduled. destruct (commit_task s) as [t0 |]; [| reflexivity].
    destruct (task_is_done w t0); [reflexivity |].
    apply list_lookup_alter_ne. congruence.
Qed.

(** X9.  A chunk that [base64.b64decode] rejects is dropped by
    [send_audio_chunk]: it returns normally and the whole state is as it
    was, on a registered stream as on any other. *)
Theorem send_audio_chunk_drops_undecodable
    (stream_sid chunk : string) (e : exn) (w : World) :
  b64decode chunk = Raise e ->
  send_audio_chunk stream_sid chunk w = (Returns tt, w).
Proof.
  intros Hdec. unfold send_audio_chunk, bind, gets.
  destruct (_sessions w !! stream_sid) as [l |]; [| reflexivity].
  rewrite Hdec, (Base64Facts.b64decode_raises chunk e Hdec). reflexivity.
Qed.

(** X10.  On a registered stream [send_audio_chunk] always returns normally,
    and it only buffers: whatever the chunk is and on whichever side of the
    threshold, no socket receives anything, and the registries and the
    context store are as they were; a chunk that decodes is appended to the
    buffer and counted, any other changes neither. *)
Theorem send_audio_chunk_only_buffers
    (stream_sid chunk : string) (l : ref) (w : World) (s : RealtimeSession) :
  _sessions w !! stream_sid = Some l ->
  session_objects w !! l = Some s ->
  exists w' s',
    send_audio_chunk stream_sid chunk w = (Returns tt, w') /\
    sockets w' = sockets w /\
    registries_kept w w' /\
    session_objects w' !! l = Some s' /\
    audio_buffer s' = audio_buffer s ++ List.filter decodes [chunk] /\
    pending_samples s' = pending_samples s + decoded_samples chunk.
Proof.
  intros Hreg Hs.
  destruct (b64decode chunk) as [audio_bytes | e] eqn:Hdec.
  - assert (Hf : List.filter decodes [chunk] = [chunk])
      by (cbn [List.filter]; unfold decodes; rewrite Hdec; reflexivity).
    assert (Hn : decoded_samples chunk = Z.of_nat (length audio_bytes) / 2)
      by (unfold decoded_samples; rewrite Hdec; reflexivity).
    destruct (Z_lt_ge_dec (pending_samples s + decoded_samples chunk)
                          MIN_COMMIT_SAMPLES) as [Hlow | Hhigh].
    + eexists. eexists. split.
      { apply (send_audio_chunk_below stream_sid chunk l w s Hreg Hs Hlow). }
      split; [reflexivity |]. split; [repeat split |].
      split; [apply lookup_updated |]. split; reflexivity.
    + eexists. eexists. split.
      { apply (send_audio_chunk_at_threshold stream_sid chunk l w s audio_bytes
                 Hreg Hs Hdec). lia. }
      split; [reflexivity |]. split; [repeat split |].
      split; [cbn; apply lookup_insert_eq |].
      cbn [audio_buffer pending_samples with_commit_task with_last_commit_request
           with_audio].
      rewrite Hf, Hn. split; reflexivity.
  - exists w, s. split.
    { unfold send_audio_chunk, bind, gets. rewrite Hreg, Hdec.
      rewrite (Base64Facts.b64decode_raises chunk e Hdec). reflexivity. }
    split; [reflexivity |]. split; [repeat split |]. split; [exact Hs |].
    cbn [List.filter]. unfold decodes, decoded_samples. rewrite Hdec.
    split; [symmetry; apply app_nil_r | lia].
Qed.


(** ** The scheduled flush *)

Ltac preserves_step :=
  lazymatch goal with
  | |- preserves _ (bind _ _) => apply preserves_bind; [| intros ?]
  | |- preserves _ (ret _) => apply preserves_ret
  | |- preserves _ (raise _) => apply preserves_raise
  | |- preserves _ (lift _) => apply preserves_lift
  | |- preserves _ (gets _) => apply preserves_gets
  | |- preserves _ (deref _) => apply preserves_deref
  | |- preserves _ (sock_op _ _) => apply preserves_sock_op
  | |- preserves _ (send_chunks _ _) => apply preserves_send_chunks
  | |- preserves _ (update_session _ _) => apply preserves_update_session
  | |- preserves _ (modify _) => apply preserves_modify
  | |- preserves _ (try_except_all _) => apply preserves_try_all
  | |- preserves _ (try_except_Exception _ _) =>
      apply preserves_try_except; [| intros ?]
  | |- preserves _ (try_finally _ _) => apply preserves_try_finally
  | |- preserves _ (match ?x with _ => _ end) => destruct x
  end.


Lemma flush_accepted (stream_sid : string) (l : ref) (w : World)
      (s : RealtimeSession) :
  session_objects w !! l = Some s ->
  MIN_COMMIT_SAMPLES <= pending_samples s ->
  audio_buffer s <> [] ->
  forallb decodes (audio_buffer s) = true ->
  socket_accepts (get_socket w (websocket s)) (length (audio_buffer s)) = true ->
  _flush_audio_buffer stream_sid l w =
  (Returns tt,
   set_session_objects <[l := with_audio [] 0 s]>
     (set_sockets
        <[websocket s :=
            socket_after_sends (get_socket w (websocket s))
              (map InputAudioBufferAppend (audio_buffer s))]> w)).
Proof.
  intros Hs Hfull Hne Hdec Hacc. unfold _flush_audio_buffer.
  rewrite (bind_returns _ _ _ _ _ (deref_some l w s Hs)).
  apply Z.ltb_ge in Hfull. rewrite Hfull.
  destruct (audio_buffer s) as [| chunk rest] eqn:Ebuf; [congruence |].
  rewrite (bind_returns _ _ _ _ _
             (send_chunks_accepted (websocket s) (chunk :: rest) w Hne Hdec Hacc)).
  apply update_session_some. exact Hs.
Qed.


(** X12.  When the loop runs a scheduled flush that is still pending, on a
    session that holds 2400 samples or more in a non-empty buffer and with
    an AI connection that takes the sends, every buffered chunk is sent, in
    order, as an input_audio_buffer.append message; the session is left with
    an empty buffer, the counter 0 and commit_task None, and the task is
    done. *)
Theorem pending_flush_delivers_buffer
    (t : ref) (tk : Task) (w : World) (s : RealtimeSession) :
  tasks w !! t = Some tk ->
  task_state tk = TaskPending ->
  session_objects w !! task_session tk = Some s ->
  MIN_COMMIT_SAMPLES <= pending_samples s ->
  audio_buffer s <> [] ->
  forallb decodes (audio_buffer s) = true ->
  socket_accepts (get_socket w (websocket s)) (length (audio_buffer s)) = true ->
  _debounced_flush t w =
  (Returns tt,
   set_tasks (alter (set_task_state TaskDone) t)
     (set_session_objects
        <[task_session tk := with_commit_task None (with_audio [] 0 s)]>
        (set_sockets
           <[websocket s :=
               socket_after_sends (get_socket w (websocket s))
                 (map InputAudioBufferAppend (audio_buffer s))]> w))).
Proof.
  intros Htk Hstate Hs Hfull Hne Hdec Hacc.
  unfold _debounced_flush. unfold ref in *. rewrite Htk, Hstate.
  unfold try_finally, sleep, skip.
  rewrite (bind_returns (ret tt) _ w w tt eq_refl).
  rewrite (flush_accepted _ _ w s Hs Hfull Hne Hdec Hacc).
  erewrite update_session_some by apply lookup_updated.
  rewrite update_update. reflexivity.
Qed.



(** ** Failing sends, and the close of a session *)

Lemma send_chunks_fails (k : ref) (chunk : string) (post : list string)
      (rest : list bool) (pre : list string) :
  forall w,
    sock_closed (get_socket w k) = false ->
    sock_faults (get_socket w k) = repeat false (length pre) ++ true :: rest ->
    forallb decodes (pre ++ [chunk]) = true ->
    send_chunks k (pre ++ chunk :: post) w =
    (Raises ConnectionClosed,
     set_sockets
       <[k := mkSocket (sock_sent (get_socket w k)
                        ++ map InputAudioBufferAppend pre) false rest]> w).
Proof.
  induction pre as [| p pre IH]; intros w Hopen Hfaults Hdec.
  - cbn [app send_chunks length repeat] in *.
    cbn [forallb] in Hdec. apply andb_prop in Hdec as [Hchunk _].
    unfold decodes in Hchunk.
    destruct (b64decode chunk) as [audio_bytes |]; [| discriminate].
    cbn [lift]. rewrite (bind_returns (ret audio_bytes) _ w w audio_bytes eq_refl).
    unfold bind, sock_send, sock_op. cbv zeta. rewrite Hopen, Hfaults.
    cbn [map]. rewrite app_nil_r. reflexivity.
  - cbn [app send_chunks length repeat forallb] in *.
    apply andb_prop in Hdec as [Hp Hdec]. unfold decodes in Hp.
    destruct (b64decode p) as [audio_bytes |]; [| discriminate].
    cbn [lift]. rewrite (bind_returns (ret audio_bytes) _ w w audio_bytes eq_refl).
    assert (Hsend :
      sock_send k (InputAudioBufferAppend p) w =
      (Returns tt,
       set_sockets
         <[k := mkSocket (sock_sent (get_socket w k) ++ [InputAudioBufferAppend p])
                         false (repeat false (length pre) ++ true :: rest)]> w)).
    { unfold sock_send, sock_op. cbv zeta. rewrite Hopen, Hfaults. reflexivity. }
    rewrite (bind_returns _ _ _ _ _ Hsend).
    rewrite IH; rewrite ?get_socket_put; try reflexivity; [| exact Hdec].
    rewrite put_socket_twice. cbn [sock_sent map]. rewrite <- app_assoc.
    reflexivity.
Qed.

(** X14.  When the AI connection takes the first sends of a flush and then
    fails, [_flush_audio_buffer] raises; the chunks before the failure have
    been sent, and the session still holds the whole buffer and its counter,
    so that a later flush sends those chunks once more. *)
Theorem flush_failure_keeps_buffer
    (stream_sid : string) (l : ref) (w : World) (s : RealtimeSession)
    (pre post : list string) (chunk : string) (rest : list bool) :
  session_objects w !! l = Some s ->
  MIN_COMMIT_SAMPLES <= pending_samples s ->
  audio_buffer s = pre ++ chunk :: post ->
  forallb decodes (pre ++ [chunk]) = true ->
  sock_closed (get_socket w (websocket s)) = false ->
  sock_faults (get_socket w (websocket s))
  = repeat false (length pre) ++ true :: rest ->
  _flush_audio_buffer stream_sid l w =
  (Raises ConnectionClosed,
   set_sockets
     <[websocket s :=
         mkSocket (sock_sent (get_socket w (websocket s))
                   ++ map InputAudioBufferAppend pre) false rest]> w).
Proof.
  intros Hs Hfull Hbuf Hdec Hopen Hfaults. unfold _flush_audio_buffer.
  rewrite (bind_returns _ _ _ _ _ (deref_some l w s Hs)).
  apply Z.ltb_ge in Hfull. rewrite Hfull. rewrite Hbuf.
  destruct (pre ++ chunk :: post) as [| c0 cs] eqn:E.
  { destruct pre; discriminate. }
  rewrite <- E.
  apply bind_raises.
  apply (send_chunks_fails (websocket s) chunk post rest pre w Hopen Hfaults Hdec).
Qed.

(** After a flush, whatever its outcome, the session object is as it was or
    emptied. *)
Lemma flush_object (stream_sid : string) (l : ref) (w : World) (s : RealtimeSession) :
  session_objects w !! l = Some s ->
  session_objects (snd (_flush_audio_buffer stream_sid l w)) !! l = Some s \/
  session_objects (snd (_flush_audio_buffer stream_sid l w)) !! l
  = Some (with_audio [] 0 s).
Proof.
  intros Hs. unfold _flush_audio_buffer.
  rewrite (bind_returns _ _ _ _ _ (deref_some l w s Hs)).
  destruct (pending_samples s <? MIN_COMMIT_SAMPLES); [left; exact Hs |].
  destruct (audio_buffer s) as [| chunk rest] eqn:Ebuf; [left; exact Hs |].
  unfold bind.
  pose proof (keeps_session_objects_send_chunks (websocket s) (chunk :: rest) w)
    as Hkeep.
  destruct (send_chunks (websocket s) (chunk :: rest) w) as [[u | e |] w1];
    cbn [snd] in *.
  - right. rewrite (update_session_some l _ w1 s) by (rewrite Hkeep; exact Hs).
    cbn. apply lookup_insert_eq.
  - left. rewrite Hkeep. exact Hs.
  - left. rewrite Hkeep. exact Hs.
Qed.

(** The first part of [close_session], up to the sleep: the scheduled flush
    is cancelled and awaited.  It returns, sends nothing, and leaves the
    session object with its buffer, counter and socket. *)
Lemma close_session_cancels (l : ref) (s : RealtimeSession) (w : World) :
  session_objects w !! l = Some s ->
  exists w1 s1,
    match commit_task s with
    | Some t =>
        done <- gets (fun w => task_is_done w t) ;;
        if done then skip
        else task_cancel t ;; try_except_all (_debounced_flush t)
    | None => skip
    end w = (Returns tt, w1) /\
    sockets w1 = sockets w /\
    registries_kept w w1 /\
    session_objects w1 !! l = Some s1 /\
    (s1 = s \/ s1 = with_commit_task None s).
Proof.
  intros Hs.
  assert (Hsame : exists w1 s1,
             (Returns tt, w) = (Returns tt, w1) /\ sockets w1 = sockets w /\
             registries_kept w w1 /\ session_objects w1 !! l = Some s1 /\
             (s1 = s \/ s1 = with_commit_task None s)).
  { exists w, s. repeat split; [exact Hs | left; reflexivity]. }
  destruct (commit_task s) as [t |]; [| exact Hsame].
  unfold bind at 1, gets.
  destruct (task_is_done w t) eqn:Hdone; [exact Hsame |].
  clear Hsame. unfold task_is_done in Hdone. unfold ref in *.
  destruct (tasks w !! t) as [tk |] eqn:Htk; [| discriminate].
  unfold bind, task_cancel, modify, try_except_all, _debounced_flush.
  cbn [tasks set_tasks]. unfold ref in *. rewrite list_lookup_alter_eq, Htk.
  cbn [fmap option_fmap option_map].
  assert (Hcancelled :
    exists tk', (match task_state tk with
                 | TaskPending => set_task_state TaskCancelling tk
                 | _ => tk
                 end) = tk' /\ task_state tk' = TaskCancelling /\
                task_session tk' = task_session tk).
  { destruct (task_state tk) eqn:Hst; try discriminate; eexists;
      (split; [reflexivity |]); split; try reflexivity; exact Hst. }
  destruct Hcancelled as (tk' & -> & Hst' & Hsess').
  rewrite Hst', Hsess'.
  unfold update_session, bind, deref, modify.
  cbn [session_objects set_tasks].
  destruct (session_objects w !! task_session tk) as [s2 |] eqn:Hs2.
  - destruct (decide (task_session tk = l)) as [Heq | Hne].
    + assert (s2 = s) as -> by (rewrite Heq in Hs2; unfold ref in *; congruence).
      eexists. exists (with_commit_task None s). split; [reflexivity |].
      split; [reflexivity |]. split; [repeat split |].
      split; [| right; reflexivity].
      cbn. rewrite Heq. apply lookup_insert_eq.
    + eexists. exists s. split; [reflexivity |].
      split; [reflexivity |]. split; [repeat split |].
      split; [| left; reflexivity].
      cbn. unfold ref in *. rewrite lookup_insert_ne by exact Hne. exact Hs.
  - eexists. exists s. split; [reflexivity |].
    split; [reflexivity |]. split; [repeat split |].
    split; [exact Hs | left; reflexivity].
Qed.


Lemma get_socket_ext (w1 w2 : World) (k : ref) :
  sockets w1 = sockets w2 -> get_socket w1 k = get_socket w2 k.
Proof. intros H. unfold get_socket. rewrite H. reflexivity. Qed.

Lemma same_inbound_audio (s s1 : RealtimeSession) :
  s1 = s \/ s1 = with_commit_task None s ->
  websocket s1 = websocket s /\ audio_buffer s1 = audio_buffer s /\
  pending_samples s1 = pending_samples s.
Proof. intros [-> | ->]; repeat split. Qed.

Lemma socket_accepts_more (sk : Socket) (n m : nat) :
  socket_accepts sk (n + m) = true ->
  socket_accepts sk n = true /\
  socket_accepts (mkSocket (sock_sent sk) (sock_closed sk) (skipn n (sock_faults sk))) m
  = true /\
  forall sent,
    socket_accepts (mkSocket sent (sock_closed sk) (skipn n (sock_faults sk))) m = true.
Proof.
  unfold socket_accepts. destruct sk as [sent0 closed faults]. cbn.
  destruct closed; [discriminate |]. cbn.
  revert faults. induction n as [| n IH]; intros faults H.
  - cbn in *. repeat split; intros; exact H.
  - destruct faults as [| f fs]; cbn in *.
    + repeat split; intros; destruct m; reflexivity.
    + apply andb_prop in H as [Hf Hfs]. rewrite Hf. cbn. apply IH. exact Hfs.
Qed.

Lemma tl_skipn {A} (n : nat) : forall l : list A, tl (skipn n l) = skipn (S n) l.
Proof.
  induction n as [| n IH]; intros [| x l]; try reflexivity.
  exact (IH l).
Qed.

Lemma close_session_registered (stream_sid : string) (l : ref) (w : World)
      (s : RealtimeSession) :
  _sessions w !! stream_sid = Some l ->
  session_objects w !! l = Some s ->
  close_session stream_sid w
  = close_popped stream_sid l s (set_sessions (delete stream_sid) w).
Proof.
  intros Hreg Hs. unfold close_session.
  rewrite (bind_returns (gets _) _ w w (Some l))
    by (unfold gets; rewrite Hreg; reflexivity).
  rewrite (bind_returns (modify _) _ w _ tt eq_refl).
  rewrite (bind_returns _ _ _ _ _
             (deref_some l (set_sessions (delete stream_sid) w) s Hs)).
  reflexivity.
Qed.

Lemma close_popped_without_flush (stream_sid : string) (l : ref) (w : World)
      (s : RealtimeSession) :
  session_objects w !! l = Some s ->
  pending_samples s < MIN_COMMIT_SAMPLES \/ audio_buffer s = [] ->
  socket_accepts (get_socket w (websocket s)) 1 = true ->
  exists w',
    close_popped stream_sid l s w = (Returns tt, w') /\
    get_socket w' (websocket s)
    = mkSocket (sock_sent (get_socket w (websocket s))) true
               (tl (sock_faults (get_socket w (websocket s)))) /\
    registries_kept w w' /\
    exists s', session_objects w' !! l = Some s' /\
               audio_buffer s' = [] /\ pending_samples s' = 0.
Proof.
  intros Hs Hsmall Hacc. unfold close_popped.
  destruct (close_session_cancels l s w Hs)
    as (w1 & s1 & Hrun & Hsock & Hkept & Hs1 & Hcase).
  destruct (same_inbound_audio s s1 Hcase) as (Hws & Hbuf & Hpend).
  rewrite (bind_returns _ _ _ _ _ Hrun).
  unfold sleep, skip. rewrite (bind_returns (ret tt) _ w1 w1 tt eq_refl).
  rewrite (bind_returns _ _ _ _ _ (deref_some l w1 s1 Hs1)).
  assert (Hcond : (MIN_COMMIT_SAMPLES <=? pending_samples s1)
                  && negb (Nat.eqb (length (audio_buffer s1)) 0) = false).
  { rewrite Hbuf, Hpend. destruct Hsmall as [Hlow | Hnil].
    - apply Z.leb_gt in Hlow. rewrite Hlow. reflexivity.
    - rewrite Hnil. apply andb_false_r. }
  rewrite Hcond. rewrite (bind_returns (ret tt) _ w1 w1 tt eq_refl).
  rewrite (bind_returns _ _ _ _ _ (update_session_some l _ w1 s1 Hs1)).
  unfold sock_close. rewrite Hws.
  assert (Hget : get_socket (set_session_objects <[l := with_audio [] 0 s1]> w1)
                            (websocket s) = get_socket w (websocket s)).
  { apply get_socket_ext. cbn. exact Hsock. }
  rewrite sock_op_accepted by (rewrite Hget; exact Hacc).
  rewrite Hget. eexists. split; [reflexivity |].
  split; [apply get_socket_put |]. split.
  - destruct Hkept as (K1 & K2 & K3 & K4). repeat split; assumption.
  - eexists. split; [cbn; apply lookup_insert_eq |]. split; reflexivity.
Qed.

Lemma close_popped_with_flush (stream_sid : string) (l : ref) (w : World)
      (s : RealtimeSession) :
  session_objects w !! l = Some s ->
  MIN_COMMIT_SAMPLES <= pending_samples s ->
  audio_buffer s <> [] ->
  forallb decodes (audio_buffer s) = true ->
  socket_accepts (get_socket w (websocket s)) (length (audio_buffer s) + 1) = true ->
  exists w',
    close_popped stream_sid l s w = (Returns tt, w') /\
    get_socket w' (websocket s)
    = mkSocket (sock_sent (get_socket w (websocket s))
                ++ map InputAudioBufferAppend (audio_buffer s)) true
               (skipn (S (length (audio_buffer s)))
                      (sock_faults (get_socket w (websocket s)))) /\
    registries_kept w w' /\
    exists s', session_objects w' !! l = Some s' /\
               audio_buffer s' = [] /\ pending_samples s' = 0.
Proof.
  intros Hs Hfull Hne Hdec Hacc. unfold close_popped.
  destruct (close_session_cancels l s w Hs)
    as (w1 & s1 & Hrun & Hsock & Hkept & Hs1 & Hcase).
  destruct (same_inbound_audio s s1 Hcase) as (Hws & Hbuf & Hpend).
  rewrite (bind_returns _ _ _ _ _ Hrun).
  unfold sleep, skip. rewrite (bind_returns (ret tt) _ w1 w1 tt eq_refl).
  rewrite (bind_returns _ _ _ _ _ (deref_some l w1 s1 Hs1)).
  assert (Hcond : (MIN_COMMIT_SAMPLES <=? pending_samples s1)
                  && negb (Nat.eqb (length (audio_buffer s1)) 0) = true).
  { rewrite Hbuf, Hpend. apply Z.leb_le in Hfull. rewrite Hfull.
    destruct (audio_buffer s); [congruence | reflexivity]. }
  rewrite Hcond.
  pose proof (get_socket_ext w1 w (websocket s) Hsock) as Hget1.
  destruct (socket_accepts_more _ _ _ Hacc) as (Haccn & _ & Hacc1).
  assert (Hflush :
    try_except_Exception (_flush_audio_buffer stream_sid l) (fun _ => ret tt) w1 =
    (Returns tt,
     set_session_objects <[l := with_audio [] 0 s1]>
       (set_sockets
          <[websocket s :=
              socket_after_sends (get_socket w (websocket s))
                (map InputAudioBufferAppend (audio_buffer s))]> w1))).
  { unfold try_except_Exception.
    rewrite (flush_accepted stream_sid l w1 s1 Hs1);
      rewrite ?Hpend, ?Hbuf, ?Hws, ?Hget1; try assumption.
    reflexivity. }
  rewrite (bind_returns _ _ _ _ _ Hflush).
  erewrite (bind_returns (update_session _ _))
    by (apply update_session_some; apply lookup_updated).
  rewrite update_update. unfold sock_close. rewrite Hws.
  match goal with
  | |- context [sock_op _ _ ?w2] =>
      assert (Hget2 : get_socket w2 (websocket s)
                      = socket_after_sends (get_socket w (websocket s))
                          (map InputAudioBufferAppend (audio_buffer s)))
        by (unfold get_socket; cbn; rewrite lookup_insert_eq; reflexivity)
  end.
  rewrite sock_op_accepted
    by (rewrite Hget2; unfold socket_after_sends; rewrite length_map; apply Hacc1).
  rewrite Hget2. eexists. split; [reflexivity |].
  split.
  { rewrite get_socket_put. unfold socket_after_sends.
    cbn [sock_sent sock_closed sock_faults]. rewrite length_map.
    f_equal. apply tl_skipn. }
  split.
  - destruct Hkept as (K1 & K2 & K3 & K4). repeat split; assumption.
  - eexists. split; [cbn; apply lookup_insert_eq |]. split; reflexivity.
Qed.

(** X15.  [close_session] on a session that holds fewer than 2400 samples,
    or an empty buffer, discards what is buffered: with an AI connection
    that takes the close it returns, the connection is closed and has
    received nothing more, the stream id is gone from the AI-session map,
    the other registries are as they were, and the session object is left
    with an empty buffer and the counter 0. *)
Theorem close_session_discards_short_tail
    (stream_sid : string) (l : ref) (w : World) (s : RealtimeSession) :
  _sessions w !! stream_sid = Some l ->
  session_objects w !! l = Some s ->
  pending_samples s < MIN_COMMIT_SAMPLES \/ audio_buffer s = [] ->
  socket_accepts (get_socket w (websocket s)) 1 = true ->
  exists w',
    close_session stream_sid w = (Returns tt, w') /\
    get_socket w' (websocket s)
    = mkSocket (sock_sent (get_socket w (websocket s))) true
               (tl (sock_faults (get_socket w (websocket s)))) /\
    _sessions w' = delete stream_sid (_sessions w) /\
    exists s', session_objects w' !! l = Some s' /\
               audio_buffer s' = [] /\ pending_samples s' = 0.
Proof.
  intros Hreg Hs Hsmall Hacc.
  rewrite (close_session_registered stream_sid l w s Hreg Hs).
  destruct (close_popped_without_flush stream_sid l
              (set_sessions (delete stream_sid) w) s Hs Hsmall Hacc)
    as (w' & Hrun & Hsock & (K1 & _) & Hobj).
  exists w'. split; [exact Hrun |]. split; [exact Hsock |].
  split; [exact K1 | exact Hobj].
Qed.

(** X16.  [close_session] on a session that holds 2400 samples or more in a
    non-empty buffer flushes before it closes: with an AI connection that
    takes the sends and the close it returns, the connection has received
    every buffered chunk, in order, as an input_audio_buffer.append message
    and is closed; the stream id is gone from the AI-session map and the
    session object is left with an empty buffer and the counter 0. *)
Theorem close_session_flushes_then_closes
    (stream_sid : string) (l : ref) (w : World) (s : RealtimeSession) :
  _sessions w !! stream_sid = Some l ->
  session_objects w !! l = Some s ->
  MIN_COMMIT_SAMPLES <= pending_samples s ->
  audio_buffer s <> [] ->
  forallb decodes (audio_buffer s) = true ->
  socket_accepts (get_socket w (websocket s)) (length (audio_buffer s) + 1) = true ->
  exists w',
    close_session stream_sid w = (Returns tt, w') /\
    get_socket w' (websocket s)
    = mkSocket (sock_sent (get_socket w (websocket s))
                ++ map InputAudioBufferAppend (audio_buffer s)) true
               (skipn (S (length (audio_buffer s)))
                      (sock_faults (get_socket w (websocket s)))) /\
    _sessions w' = delete stream_sid (_sessions w) /\
    exists s', session_objects w' !! l = Some s' /\
               audio_buffer s' = [] /\ pending_samples s' = 0.
Proof.
  intros Hreg Hs Hfull Hne Hdec Hacc.
  rewrite (close_session_registered stream_sid l w s Hreg Hs).
  destruct (close_popped_with_flush stream_sid l
              (set_sessions (delete stream_sid) w) s Hs Hfull Hne Hdec Hacc)
    as (w' & Hrun & Hsock & (K1 & _) & Hobj).
  exists w'. split; [exact Hrun |]. split; [exact Hsock |].
  split; [exact K1 | exact Hobj].
Qed.

(** X17.  However [close_session] ends on a registered stream, also when
    the final flush or the close of the connection fails, the session object
    is left with an empty buffer and the counter 0, and no
    [CancelledError] escapes; so a flush of that session that runs later
    returns without sending anything. *)
Theorem close_session_always_empties_buffer
    (stream_sid : string) (l : ref) (w : World) (s : RealtimeSession) :
  _sessions w !! stream_sid = Some l ->
  session_objects w !! l = Some s ->
  fst (close_session stream_sid w) <> Cancelled /\
  (exists s',
      session_objects (snd (close_session stream_sid w)) !! l = Some s' /\
      audio_buffer s' = [] /\ pending_samples s' = 0) /\
  _flush_audio_buffer stream_sid l (snd (close_session stream_sid w))
  = (Returns tt, snd (close_session stream_sid w)).
Proof.
  intros Hreg Hs.
  assert (Hmain :
    fst (close_session stream_sid w) <> Cancelled /\
    exists s', session_objects (snd (close_session stream_sid w)) !! l = Some s' /\
               audio_buffer s' = [] /\ pending_samples s' = 0).
  { rewrite (close_session_registered stream_sid l w s Hreg Hs).
    set (w0 := set_sessions (delete stream_sid) w).
    assert (Hs0 : session_objects w0 !! l = Some s) by exact Hs.
    unfold close_popped.
    destruct (close_session_cancels l s w0 Hs0)
      as (w1 & s1 & Hrun & _ & _ & Hs1 & _).
    rewrite (bind_returns _ _ _ _ _ Hrun).
    unfold sleep, skip. rewrite (bind_returns (ret tt) _ w1 w1 tt eq_refl).
    rewrite (bind_returns _ _ _ _ _ (deref_some l w1 s1 Hs1)).
    assert (Hif : exists w2 s2,
      (if (MIN_COMMIT_SAMPLES <=? pending_samples s1)
          && negb (Nat.eqb (length (audio_buffer s1)) 0)
       then try_except_Exception (_flush_audio_buffer stream_sid l) (fun _ => ret tt)
       else ret tt) w1 = (Returns tt, w2) /\
      session_objects w2 !! l = Some s2).
    { destruct (_ && _).
      - unfold try_except_Exception.
        pose proof (never_cancelled_flush stream_sid l w1) as Hnc.
        pose proof (flush_object stream_sid l w1 s1 Hs1) as Hobj.
        destruct (_flush_audio_buffer stream_sid l w1) as [[[] | e |] w2];
          cbn [fst snd] in *; [| | congruence];
          destruct Hobj as [Hobj | Hobj]; eauto.
      - exists w1, s1. split; [reflexivity | exact Hs1]. }
    destruct Hif as (w2 & s2 & Hif & Hs2).
    rewrite (bind_returns _ _ _ _ _ Hif).
    rewrite (bind_returns _ _ _ _ _ (update_session_some l _ w2 s2 Hs2)).
    pose proof (never_cancelled_sock_op (websocket s1)
                  (fun sk => mkSocket (sock_sent sk) true (sock_faults sk))
                  (set_session_objects <[l := with_audio [] 0 s2]> w2)) as Hnc.
    pose proof (keeps_session_objects_sock_op (websocket s1)
                  (fun sk => mkSocket (sock_sent sk) true (sock_faults sk))
                  (set_session_objects <[l := with_audio [] 0 s2]> w2)) as Hkeep.
    unfold sock_close. split; [exact Hnc |].
    exists (with_audio [] 0 s2). rewrite Hkeep.
    split; [apply lookup_updated |]. split; reflexivity. }
  destruct Hmain as (Hnc & s' & Hs' & Hbuf & Hpend).
  split; [exact Hnc |]. split; [exists s'; repeat split; assumption |].
  apply (flush_below_threshold stream_sid l _ s' Hs').
  rewrite Hpend. reflexivity.
Qed.


(** ** The outbound path and the receive loop *)

(** An operation on a socket that is closed or whose peer makes it fail. *)
Lemma sock_op_refused (k : ref) (effect : Socket -> Socket) (w : World) :
  socket_accepts (get_socket w k) 1 = false ->
  fst (sock_op k effect w) = Raises ConnectionClosed /\
  sock_sent (get_socket (snd (sock_op k effect w)) k) = sock_sent (get_socket w k).
Proof.
  unfold socket_accepts, sock_op. cbv zeta.
  destruct (sock_closed (get_socket w k)) eqn:Hclosed; [split; reflexivity |].
  destruct (sock_faults (get_socket w k)) as [| [|] fs]; cbn; try discriminate.
  intros _. split; [reflexivity |]. rewrite get_socket_put. reflexivity.
Qed.

Lemma inbound_parts_update (l : ref) (s s' : RealtimeSession) (w : World) :
  session_objects w !! l = Some s ->
  inbound_part s' = inbound_part s ->
  inbound_parts (set_session_objects <[l := s']> w) = inbound_parts w.
Proof.
  intros Hs Hsame. unfold inbound_parts. cbn [session_objects set_session_objects].
  rewrite fmap_insert, Hsame. apply insert_id.
  rewrite lookup_fmap, Hs. reflexivity.
Qed.

Section OutboundFacts.

Variable ratecv : list byte -> Z -> Z -> result (list byte).

(** X18.  On a registered stream [send_audio_to_twilio] returns with the
    state as it was when the conversion of the payload raises (a payload
    that is not Base64, PCM that the library refuses); when the conversion
    succeeds and the Twilio socket takes the send, it sends exactly one media
    frame, with the stream id and the converted payload, and changes nothing
    else. *)
Theorem send_audio_to_twilio_one_frame
    (stream_sid audio_payload_b64 : string) (k : ref) (w : World) :
  _twilio_connections w !! stream_sid = Some k ->
  (forall e,
      convert_pcm16_to_mulaw ratecv audio_payload_b64 24000 8000 = Raise e ->
      send_audio_to_twilio ratecv stream_sid audio_payload_b64 w = (Returns tt, w)) /\
  (forall twilio_payload,
      convert_pcm16_to_mulaw ratecv audio_payload_b64 24000 8000 = Ok twilio_payload ->
      socket_accepts (get_socket w k) 1 = true ->
      send_audio_to_twilio ratecv stream_sid audio_payload_b64 w =
      (Returns tt,
       set_sockets
         <[k := socket_after_sends (get_socket w k)
                  [TwilioMedia stream_sid twilio_payload]]> w)).
Proof.
  intros Hreg. split.
  - intros e Hconv. unfold send_audio_to_twilio, bind, gets.
    rewrite Hreg, Hconv. reflexivity.
  - intros twilio_payload Hconv Hacc. unfold send_audio_to_twilio.
    rewrite (bind_returns (gets _) _ w w (Some k))
      by (unfold gets; rewrite Hreg; reflexivity).
    rewrite Hconv. unfold sock_send.
    rewrite (sock_op_accepted k _ w Hacc). reflexivity.
Qed.

Lemma preserves_send_audio_to_twilio {X} (f : World -> X)
      (stream_sid audio_payload_b64 : string) :
  (forall g w, f (set_sockets g w) = f w) ->
  preserves f (send_audio_to_twilio ratecv stream_sid audio_payload_b64).
Proof.
  intros Hf. unfold send_audio_to_twilio, sock_send, skip.
  repeat preserves_step; exact Hf.
Qed.

Lemma preserves_handle_event {X} (f : World -> X)
      (stream_sid : string) (l : ref) (payload : Payload) :
  (forall g w, f (set_sockets g w) = f w) ->
  (forall g w, f (set_session_context g w) = f w) ->
  (forall w s s', session_objects w !! l = Some s ->
                  inbound_part s' = inbound_part s ->
                  f (set_session_objects <[l := s']> w) = f w) ->
  preserves f (handle_event ratecv stream_sid l payload).
Proof.
  intros Hsock Hctx Hobj.
  unfold handle_event, persist_transcript, update_context, skip.
  repeat first
    [ apply preserves_send_audio_to_twilio; exact Hsock
    | preserves_step ];
    try (intros w0; apply Hctx);
    try (intros w0 s0 Hs0; apply (Hobj w0 s0); [exact Hs0 | reflexivity]).
Qed.

(** X19.  No event from the AI connection, whatever its type and fields and
    whatever the outcome of handling it, touches the inbound side of a
    session: the socket, audio_buffer, pending_samples, last_commit_request
    and commit_task of every session object, the tasks, the AI-session map,
    the telephony-connection registry and the audio-config registry are as
    they were. *)
Theorem events_leave_inbound_side
    (stream_sid : string) (l : ref) (payload : Payload) (w : World) :
  let w' := snd (handle_event ratecv stream_sid l payload w) in
  inbound_parts w' = inbound_parts w /\
  tasks w' = tasks w /\
  _sessions w' = _sessions w /\
  _twilio_connections w' = _twilio_connections w /\
  _stream_audio_config w' = _stream_audio_config w.
Proof.
  cbv zeta. repeat split.
  - apply (preserves_handle_event inbound_parts); try reflexivity.
    intros w0 s0 s' Hs0 Hsame. apply (inbound_parts_update l s0 s' w0 Hs0 Hsame).
  - apply (preserves_handle_event tasks); reflexivity.
  - apply (preserves_handle_event _sessions); reflexivity.
  - apply (preserves_handle_event _twilio_connections); reflexivity.
  - apply (preserves_handle_event _stream_audio_config); reflexivity.
Qed.

End OutboundFacts.


Section Respects.

Variable R : World -> World -> Prop.
Hypothesis R_refl : forall w, R w w.
Hypothesis R_trans : forall w1 w2 w3, R w1 w2 -> R w2 w3 -> R w1 w3.

Lemma respects_ret {A} (a : A) : respects R (ret a).
Proof. intros w. apply R_refl. Qed.

Lemma respects_gets {A} (g : World -> A) : respects R (gets g).
Proof. intros w. apply R_refl. Qed.

Lemma respects_bind {A B} (c : M A) (k : A -> M B) :
  respects R c -> (forall a, respects R (k a)) -> respects R (bind c k).
Proof.
  intros Hc Hk w. unfold bind. specialize (Hc w).
  destruct (c w) as [[a | e |] w1]; cbn [snd] in *; try exact Hc.
  eapply R_trans; [exact Hc | apply Hk].
Qed.

Lemma respects_update_session (l : ref) (g : RealtimeSession -> RealtimeSession) :
  (forall w s, session_objects w !! l = Some s ->
               R w (set_session_objects <[l := g s]> w)) ->
  respects R (update_session l g).
Proof.
  intros Hg w. unfold update_session, bind, deref, modify.
  destruct (session_objects w !! l) as [s |] eqn:Es; cbn [snd];
    [apply Hg; exact Es | apply R_refl].
Qed.

End Respects.

Lemma no_new_waiting_refl (w : World) : no_new_waiting w w.
Proof. intros l H. exact H. Qed.

Lemma no_new_waiting_trans (w1 w2 w3 : World) :
  no_new_waiting w1 w2 -> no_new_waiting w2 w3 -> no_new_waiting w1 w3.
Proof. intros H12 H23 l H. apply H12, H23, H. Qed.

Lemma no_new_waiting_same_objects (w w' : World) :
  session_objects w' = session_objects w -> no_new_waiting w w'.
Proof. intros Hsame l H. rewrite Hsame in H. exact H. Qed.

Lemma no_new_waiting_update (l : ref) (s s' : RealtimeSession) (w : World) :
  session_objects w !! l = Some s ->
  (is_waiting_response s' = true -> is_waiting_response s = true) ->
  no_new_waiting w (set_session_objects <[l := s']> w).
Proof.
  intros Hs Himp l' H. cbn [session_objects set_session_objects] in H.
  destruct (decide (l = l')) as [<- | Hne].
  - rewrite lookup_insert_eq in H. cbn in H. rewrite Hs. cbn.
    f_equal. apply Himp. congruence.
  - rewrite lookup_insert_ne in H by exact Hne. exact H.
Qed.

Section ReceiveFacts.

Variable ratecv : list byte -> Z -> Z -> result (list byte).

(** X20.  No event from the AI connection makes a session wait for a
    response: a session object whose is_waiting_response is true after an
    event was handled had it true before; the events can only reset it. *)
Theorem events_never_set_waiting
    (stream_sid : string) (l : ref) (payload : Payload) (w : World) :
  no_new_waiting w (snd (handle_event ratecv stream_sid l payload w)).
Proof.
  revert w.
  change (respects no_new_waiting (handle_event ratecv stream_sid l payload)).
  pose proof no_new_waiting_refl as Hrefl.
  pose proof no_new_waiting_trans as Htrans.
  assert (Hsame : forall {A} (c : M A),
             preserves session_objects c -> respects no_new_waiting c).
  { intros A c Hc w. apply no_new_waiting_same_objects. apply Hc. }
  unfold handle_event, persist_transcript, skip.
  repeat lazymatch goal with
    | |- respects _ (bind _ _) => apply (respects_bind _ Htrans); [| intros ?]
    | |- respects _ (ret _) => apply (respects_ret _ Hrefl)
    | |- respects _ (gets _) => apply (respects_gets _ Hrefl)
    | |- respects _ (deref _) => apply Hsame, preserves_deref
    | |- respects _ (update_context _ _ _) =>
        apply Hsame; unfold update_context; apply preserves_modify; reflexivity
    | |- respects _ (send_audio_to_twilio _ _ _) =>
        apply Hsame, preserves_send_audio_to_twilio; reflexivity
    | |- respects _ (update_session _ _) =>
        apply (respects_update_session _ Hrefl); intros w0 s0 Hs0;
        apply (no_new_waiting_update l s0 _ w0 Hs0)
    | |- respects _ (match ?x with _ => _ end) => destruct x
    end;
    try (cbn; congruence); try (cbn; tauto).
Qed.

End ReceiveFacts.





Section LoopFacts.

Variable ratecv : list byte -> Z -> Z -> result (list byte).




Lemma never_cancelled_handle_event (stream_sid : string) (l : ref) (payload : Payload) :
  never_cancelled (handle_event ratecv stream_sid l payload).
Proof.
  unfold handle_event, persist_transcript, update_context, send_audio_to_twilio,
    sock_send, skip.
  repeat never_cancelled_step.
Qed.

Lemma never_cancelled_receive_loop (stream_sid : string) (l : ref)
      (messages : list AiMessage) :
  never_cancelled (receive_loop ratecv stream_sid l messages).
Proof.
  induction messages as [| message rest IH]; [apply never_cancelled_ret |].
  cbn [receive_loop]. apply never_cancelled_bind; [| intros _; exact IH].
  destruct message; [apply never_cancelled_ret | apply never_cancelled_handle_event].
Qed.

(** X22.  [_receive_and_forward] never raises: for every stream id, every
    sequence of messages and every state it returns normally; an exception
    from the handling of a message (a send to Twilio that fails, say) is
    swallowed. *)
Theorem receive_and_forward_always_returns
    (stream_sid : string) (messages : list AiMessage) (w : World) :
  fst (_receive_and_forward ratecv stream_sid messages w) = Returns tt.
Proof.
  unfold _receive_and_forward, bind, gets.
  destruct (_sessions w !! stream_sid) as [l |]; [| reflexivity].
  unfold try_except_Exception.
  pose proof (never_cancelled_receive_loop stream_sid l messages w) as Hnc.
  destruct (receive_loop ratecv stream_sid l messages w) as [[[] | e |] w1];
    cbn [fst] in *; [reflexivity | reflexivity | congruence].
Qed.

(** X23.  Messages that are not JSON are skipped and the loop goes on: the
    receive loop does on a sequence of messages what it does on the
    messages of the sequence that parse. *)
Theorem receive_loop_skips_bad_json
    (stream_sid : string) (l : ref) (messages : list AiMessage) (w : World) :
  receive_loop ratecv stream_sid l messages w
  = receive_loop ratecv stream_sid l (parsed_messages messages) w.
Proof.
  revert w. induction messages as [| message rest IH]; intros w; [reflexivity |].
  destruct message as [| payload].
  - cbn [parsed_messages List.filter is_bad_json negb receive_loop handle_message].
    unfold skip. rewrite (bind_returns (ret tt) _ w w tt eq_refl). apply IH.
  - cbn [parsed_messages List.filter is_bad_json negb receive_loop].
    unfold bind. destruct (handle_message ratecv stream_sid l (Json payload) w)
      as [[u | e |] w1]; try reflexivity.
    apply IH.
Qed.

(** X24.  A message whose handling raises ends the receive loop for the
    call: [_receive_and_forward] returns normally with the state that the
    failed handling left, and none of the messages after it is handled. *)
Theorem failed_message_ends_receive_loop
    (stream_sid : string) (l : ref) (message : AiMessage) (rest : list AiMessage)
    (e : exn) (w w1 : World) :
  _sessions w !! stream_sid = Some l ->
  handle_message ratecv stream_sid l message w = (Raises e, w1) ->
  _receive_and_forward ratecv stream_sid (message :: rest) w = (Returns tt, w1).
Proof.
  intros Hreg Hfail. unfold _receive_and_forward.
  rewrite (bind_returns (gets _) _ w w (Some l))
    by (unfold gets; rewrite Hreg; reflexivity).
  unfold try_except_Exception. cbn [receive_loop].
  rewrite (bind_raises _ _ _ _ _ Hfail). reflexivity.
Qed.

Lemma never_cancelled_create_task (stream_sid : string) (l : ref) :
  never_cancelled (create_task stream_sid l).
Proof. intros w. discriminate. Qed.

Lemma never_cancelled_send_audio_chunk (stream_sid chunk : string) :
  never_cancelled (send_audio_chunk stream_sid chunk).
Proof.
  unfold send_audio_chunk, task_cancel, skip.
  repeat first
    [ apply never_cancelled_create_task
    | never_cancelled_step ].
Qed.


End LoopFacts.

(** ** The stream handler, composed *)

Lemma build_system_prompt_reads_context_text (stream_sid : string) (w : World) :
  fst (build_system_prompt stream_sid w)
  = Returns (strip (base_prompt ++ newline ++ default "" (context_text stream_sid w))).
Proof.
  unfold build_system_prompt, bind, setdefault_context, ret, context_text.
  cbn [fst]. destruct (_session_context w !! stream_sid) as [session_data |];
    reflexivity.
Qed.

Lemma context_text_update_context (other stream_sid key value : string) (w : World) :
  key <> "context" ->
  context_text other (snd (update_context stream_sid key value w))
  = context_text other w.
Proof.
  intros Hkey. unfold update_context, modify, context_text, set_session_context.
  cbn [snd _session_context].
  destruct (decide (other = stream_sid)) as [-> | Hne].
  - rewrite lookup_insert_eq, lookup_insert_ne by congruence.
    destruct (_session_context w !! stream_sid); reflexivity.
  - rewrite lookup_insert_ne by congruence. reflexivity.
Qed.

Section HandlerFacts.

Variable ratecv : list byte -> Z -> Z -> result (list byte).

Lemma preserves_context_text_handle_event
      (other stream_sid : string) (l : ref) (payload : Payload) :
  preserves (context_text other) (handle_event ratecv stream_sid l payload).
Proof.
  unfold handle_event, persist_transcript, skip.
  repeat first
    [ apply preserves_send_audio_to_twilio; reflexivity
    | lazymatch goal with
      | |- preserves _ (update_context _ _ _) =>
          intros w0; apply context_text_update_context; discriminate
      end
    | preserves_step ];
    intros; reflexivity.
Qed.

(** X26.  No event from the AI connection changes the system prompt of any
    stream: what [build_system_prompt] returns for a stream id after an
    event was handled is what it returned before.  The transcript that the
    terminal events store goes under the key last_ai_response, which the
    prompt does not read. *)
Theorem events_never_change_the_prompt
    (other stream_sid : string) (l : ref) (payload : Payload) (w : World) :
  fst (build_system_prompt other (snd (handle_event ratecv stream_sid l payload w)))
  = fst (build_system_prompt other w).
Proof.
  rewrite !build_system_prompt_reads_context_text.
  rewrite (preserves_context_text_handle_event other stream_sid l payload w).
  reflexivity.
Qed.

(** X27.  On a stream configured as raw PCM (audio/x-raw or audio/L16) at
    16000 Hz, [forward_media_chunk] does no rate conversion: it returns
    normally and leaves the state that [send_audio_chunk] leaves for the
    decoded bytes encoded again.  What reaches the session is the canonical
    Base64 of the bytes, not the payload as received. *)
Theorem forward_raw_chunk_is_reencoded
    (stream_sid media_chunk_b64 : string) (cfg : AudioConfig)
    (raw_bytes : list byte) (w : World) :
  _stream_audio_config w !! stream_sid = Some cfg ->
  cfg_encoding cfg = "audio/x-raw" \/ cfg_encoding cfg = "audio/L16" ->
  cfg_sample_rate cfg = 16000 ->
  b64decode media_chunk_b64 = Ok raw_bytes ->
  forward_media_chunk ratecv stream_sid media_chunk_b64 w
  = (Returns tt, snd (send_audio_chunk stream_sid (b64encode raw_bytes) w)).
Proof.
  intros Hcfg Henc Hrate Hdec. unfold forward_media_chunk, try_except_Exception.
  rewrite (bind_returns (gets _) _ w w (Some cfg))
    by (unfold gets; rewrite Hcfg; reflexivity).
  assert (Hconv : convert_audio_to_pcm16 ratecv media_chunk_b64
                    (cfg_encoding cfg) (cfg_sample_rate cfg) 16000
                  = Ok (b64encode raw_bytes)).
  { unfold convert_audio_to_pcm16. rewrite Hdec, Hrate. cbn [result_bind].
    destruct Henc as [-> | ->]; reflexivity. }
  rewrite (bind_returns (lift _) _ w w (b64encode raw_bytes))
    by (unfold lift; rewrite Hconv; reflexivity).
  pose proof (never_cancelled_send_audio_chunk stream_sid (b64encode raw_bytes) w)
    as Hnc.
  destruct (send_audio_chunk stream_sid (b64encode raw_bytes) w)
    as [[[] | e |] w1]; cbn [fst snd] in *; [reflexivity | reflexivity | congruence].
Qed.

(** X28.  [register_stream] forgets the format of the stream: a
    [configure_stream_audio] followed by a [register_stream] for the same
    stream id leaves the state that the [register_stream] alone leaves, with
    the format audio/x-mulaw at 8000 Hz. *)
Theorem register_stream_forgets_configuration
    (stream_sid : string) (websocket : ref)
    (encoding : option string) (sample_rate : option Z) (w : World) :
  (configure_stream_audio stream_sid encoding sample_rate ;;
   register_stream stream_sid websocket) w
  = register_stream stream_sid websocket w.
Proof.
  unfold configure_stream_audio, register_stream, bind, gets, modify, skip, ret.
  destruct (_stream_audio_config w !! stream_sid) as [cfg |]; [| reflexivity].
  cbn. f_equal. unfold set_stream_audio_config, set_twilio_connections. cbn.
  rewrite insert_insert_eq. reflexivity.
Qed.

(** X29.  After [terminate_session] for a stream id, whatever its outcome
    was, everything that still arrives for that stream id is dropped:
    [forward_media_chunk], [send_audio_chunk], [send_audio_to_twilio],
    [configure_stream_audio] and [_receive_and_forward] return normally and
    leave the state as it is. *)
Theorem traffic_after_terminate_is_dropped
    (stream_sid payload : string) (encoding : option string)
    (sample_rate : option Z) (messages : list AiMessage) (w : World) :
  let w1 := snd (terminate_session stream_sid w) in
  forward_media_chunk ratecv stream_sid payload w1 = (Returns tt, w1) /\
  send_audio_chunk stream_sid payload w1 = (Returns tt, w1) /\
  send_audio_to_twilio ratecv stream_sid payload w1 = (Returns tt, w1) /\
  configure_stream_audio stream_sid encoding sample_rate w1 = (Returns tt, w1) /\
  _receive_and_forward ratecv stream_sid messages w1 = (Returns tt, w1).
Proof.
  cbv zeta. rewrite terminate_session_unfold. cbn [snd].
  destruct (close_session_registries stream_sid w) as (Hs & _ & Ht & Ha).
  set (w1 := terminate_cleanup stream_sid (snd (close_session stream_sid w))).
  assert (H1 : _sessions w1 !! stream_sid = None).
  { unfold w1, terminate_cleanup, set_session_context, set_stream_audio_config,
      set_twilio_connections. cbn [_sessions]. rewrite Hs. apply lookup_delete_eq. }
  assert (H2 : _twilio_connections w1 !! stream_sid = None).
  { unfold w1, terminate_cleanup, set_session_context, set_stream_audio_config,
      set_twilio_connections. cbn [_twilio_connections]. apply lookup_delete_eq. }
  assert (H3 : _stream_audio_config w1 !! stream_sid = None).
  { unfold w1, terminate_cleanup, set_session_context, set_stream_audio_config,
      set_twilio_connections. cbn [_stream_audio_config]. apply lookup_delete_eq. }
  clearbody w1.
  split; [| split; [| split; [| split]]].
  - unfold forward_media_chunk, try_except_Exception, bind, gets.
    rewrite H3. reflexivity.
  - unfold send_audio_chunk, bind, gets. rewrite H1. reflexivity.
  - unfold send_audio_to_twilio, bind, gets. rewrite H2. reflexivity.
  - unfold configure_stream_audio, bind, gets. rewrite H3. reflexivity.
  - unfold _receive_and_forward, bind, gets. rewrite H1. reflexivity.
Qed.

End HandlerFacts.

(** ** The properties above, on a call *)

Lemma pop_context_missing_witness :
  fst (pop_context "CA123" "context" "none" idle_world) = Returns "none" /\
  _session_context (snd (pop_context "CA999" "context" "none" idle_world)) !! "CA999"
  = Some ∅.
Proof.
  split.
  - destruct (pop_context_missing "CA123" "context" "none" idle_world)
      as [Hret _]; [vm_compute; reflexivity | exact Hret].
  - destruct (pop_context_missing "CA999" "context" "none" idle_world)
      as (_ & _ & Hentry); [vm_compute; reflexivity |].
    apply Hentry. vm_compute. reflexivity.
Defined.

Lemma build_system_prompt_without_context_witness :
  fst (build_system_prompt "CA123" idle_world) = Returns base_prompt /\
  snd (build_system_prompt "CA123" idle_world) = idle_world.
Proof.
  destruct (build_system_prompt_without_context "CA123" idle_world)
    as (Hret & _ & Hsame); [vm_compute; reflexivity |].
  split; [exact Hret |]. apply (Hsame ∅). vm_compute. reflexivity.
Defined.

Lemma raw_audio_passes_through_witness :
  convert_audio_to_pcm16 ratecv_refusing "A A A A" "audio/L16" 16000 16000
  = Ok "AAAA".
Proof.
  apply (raw_audio_passes_through ratecv_refusing "A A A A" "audio/L16"
           [x00; x00; x00] 16000).
  - right. reflexivity.
  - vm_compute. reflexivity.
Defined.

Lemma companded_byte_is_one_sample_witness :
  exists pcm16_b64,
    convert_audio_to_pcm16 ratecv_refusing (b64encode (repeat xff 160))
      "audio/x-mulaw" 8000 8000 = Ok pcm16_b64 /\
    decodes pcm16_b64 = true /\
    decoded_samples pcm16_b64 = 160.
Proof.
  apply (companded_byte_is_one_sample ratecv_refusing (repeat xff 160)
           "audio/x-mulaw" 8000).
  left. reflexivity.
Defined.

Lemma pcm16_to_mulaw_needs_whole_frames_witness :
  convert_pcm16_to_mulaw ratecv_refusing (b64encode [x00; x00; x00]) 8000 8000
  = Raise (AudioopError "not a whole number of frames").
Proof.
  apply (proj2 (pcm16_to_mulaw_needs_whole_frames ratecv_refusing
                  [x00; x00; x00] 8000)).
  reflexivity.
Defined.

Lemma undecodable_payload_raises_first_witness :
  convert_audio_to_pcm16 ratecv_same "A" "audio/x-flac" 8000 16000
  = Raise (BinasciiError "Invalid base64-encoded string") /\
  convert_pcm16_to_mulaw ratecv_same "A" 24000 8000
  = Raise (BinasciiError "Invalid base64-encoded string").
Proof.
  destruct (undecodable_payload_raises_first ratecv_same "A" "audio/x-flac"
              (BinasciiError "Invalid base64-encoded string") 8000 16000)
    as (_ & Hin & _); [vm_compute; reflexivity |].
  destruct (undecodable_payload_raises_first ratecv_same "A" "audio/x-flac"
              (BinasciiError "Invalid base64-encoded string") 24000 8000)
    as (_ & _ & Hout); [vm_compute; reflexivity |].
  split; [exact Hin | exact Hout].
Defined.

Lemma send_audio_chunk_schedules_one_flush_witness :
  exists w',
    send_audio_chunk "CA123" (silence_b64 2) loaded_world = (Returns tt, w') /\
    tasks w' = [mkTask "CA123" 0%nat TaskCancelling;
                mkTask "CA123" 0%nat TaskPending] /\
    (commit_task <$> session_objects w' !! 0%nat) = Some (Some 1%nat).
Proof.
  destruct (send_audio_chunk_schedules_one_flush "CA123" (silence_b64 2) 0%nat
              loaded_world loaded_session [x00; x00])
    as (w' & Hrun & _ & _ & Htask & _).
  - vm_compute. reflexivity.
  - vm_compute. reflexivity.
  - vm_compute. reflexivity.
  - vm_compute. discriminate.
  - exists w'. split; [exact Hrun |]. split; [| exact Htask].
    pose proof (f_equal snd Hrun) as Hw. cbn [snd] in Hw.
    rewrite <- Hw. vm_compute. reflexivity.
Defined.

Lemma send_audio_chunk_drops_undecodable_witness :
  send_audio_chunk "CA123" "A" loaded_world = (Returns tt, loaded_world).
Proof.
  apply (send_audio_chunk_drops_undecodable "CA123" "A"
           (BinasciiError "Invalid base64-encoded string") loaded_world).
  vm_compute. reflexivity.
Defined.

Lemma send_audio_chunk_only_buffers_witness :
  exists w' s',
    send_audio_chunk "CA123" (silence_b64 2000) idle_world = (Returns tt, w') /\
    sockets w' = sockets idle_world /\
    session_objects w' !! 0%nat = Some s' /\
    audio_buffer s' = [silence_b64 2000] /\
    pending_samples s' = 1000.
Proof.
  destruct (send_audio_chunk_only_buffers "CA123" (silence_b64 2000) 0%nat
              idle_world (new_session 0%nat))
    as (w' & s' & Hrun & Hsock & _ & Hs' & Hbuf & Hcount).
  - vm_compute. reflexivity.
  - vm_compute. reflexivity.
  - exists w', s'. split; [exact Hrun |]. split; [exact Hsock |].
    split; [exact Hs' |]. split.
    + rewrite Hbuf. vm_compute. reflexivity.
    + rewrite Hcount. vm_compute. reflexivity.
Defined.


Lemma pending_flush_delivers_buffer_witness :
  fst (_debounced_flush 0%nat loaded_world) = Returns tt /\
  sock_sent (get_socket (snd (_debounced_flush 0%nat loaded_world)) 0%nat)
  = [InputAudioBufferAppend (silence_b64 2000);
     InputAudioBufferAppend (silence_b64 2000);
     InputAudioBufferAppend (silence_b64 1200)].
Proof.
  rewrite (pending_flush_delivers_buffer 0%nat (mkTask "CA123" 0%nat TaskPending)
             loaded_world loaded_session).
  - split; [reflexivity |]. vm_compute. reflexivity.
  - vm_compute. reflexivity.
  - reflexivity.
  - vm_compute. reflexivity.
  - vm_compute. discriminate.
  - vm_compute. discriminate.
  - vm_compute. reflexivity.
  - vm_compute. reflexivity.
Defined.

Lemma flush_failure_keeps_buffer_witness :
  fst (_flush_audio_buffer "CA123" 0%nat flaky_world) = Raises ConnectionClosed /\
  sock_sent (get_socket (snd (_flush_audio_buffer "CA123" 0%nat flaky_world)) 0%nat)
  = [InputAudioBufferAppend (silence_b64 2000)] /\
  session_objects (snd (_flush_audio_buffer "CA123" 0%nat flaky_world)) !! 0%nat
  = Some loaded_session.
Proof.
  rewrite (flush_failure_keeps_buffer "CA123" 0%nat flaky_world loaded_session
             [silence_b64 2000] [silence_b64 1200] (silence_b64 2000) []).
  - split; [reflexivity |]. split; vm_compute; reflexivity.
  - vm_compute. reflexivity.
  - vm_compute. discriminate.
  - reflexivity.
  - vm_compute. reflexivity.
  - vm_compute. reflexivity.
  - vm_compute. reflexivity.
Defined.

Lemma close_session_discards_short_tail_witness :
  exists w',
    close_session "CA123" (snd (send_audio_chunk "CA123" (silence_b64 2000) idle_world))
    = (Returns tt, w') /\
    get_socket w' 0%nat = mkSocket [] true [] /\
    _sessions w' = ∅.
Proof.
  destruct (close_session_discards_short_tail "CA123" 0%nat
              (snd (send_audio_chunk "CA123" (silence_b64 2000) idle_world))
              (with_audio [silence_b64 2000] 1000 (new_session 0%nat)))
    as (w' & Hrun & Hsock & Hreg & _).
  - vm_compute. reflexivity.
  - vm_compute. reflexivity.
  - left. vm_compute. reflexivity.
  - vm_compute. reflexivity.
  - exists w'. split; [exact Hrun |]. split.
    + etransitivity; [exact Hsock |]. vm_compute. reflexivity.
    + rewrite Hreg. vm_compute. reflexivity.
Defined.

Lemma close_session_flushes_then_closes_witness :
  exists w',
    close_session "CA123" (call_world (with_commit_task None loaded_session) fresh_socket)
    = (Returns tt, w') /\
    get_socket w' 0%nat
    = mkSocket [InputAudioBufferAppend (silence_b64 2000);
                InputAudioBufferAppend (silence_b64 2000);
                InputAudioBufferAppend (silence_b64 1200)] true [].
Proof.
  destruct (close_session_flushes_then_closes "CA123" 0%nat
              (call_world (with_commit_task None loaded_session) fresh_socket)
              (with_commit_task None loaded_session))
    as (w' & Hrun & Hsock & _).
  - vm_compute. reflexivity.
  - vm_compute. reflexivity.
  - vm_compute. discriminate.
  - vm_compute. discriminate.
  - vm_compute. reflexivity.
  - vm_compute. reflexivity.
  - exists w'. split; [exact Hrun |].
    etransitivity; [exact Hsock |]. vm_compute. reflexivity.
Defined.

Lemma close_session_always_empties_buffer_witness :
  fst (close_session "CA123" failing_world) <> Cancelled /\
  _flush_audio_buffer "CA123" 0%nat (snd (close_session "CA123" failing_world))
  = (Returns tt, snd (close_session "CA123" failing_world)).
Proof.
  destruct (close_session_always_empties_buffer "CA123" 0%nat failing_world
              (new_session 0%nat))
    as (Hnc & _ & Hflush).
  - vm_compute. reflexivity.
  - vm_compute. reflexivity.
  - split; [exact Hnc | exact Hflush].
Defined.

Lemma send_audio_to_twilio_one_frame_witness :
  send_audio_to_twilio ratecv_same "CA123" (silence_b64 4) idle_world
  = (Returns tt,
     set_sockets <[1%nat := mkSocket [TwilioMedia "CA123" "//8="] false []]>
       idle_world) /\
  send_audio_to_twilio ratecv_refusing "CA123" (silence_b64 4) idle_world
  = (Returns tt, idle_world).
Proof.
  split.
  - destruct (send_audio_to_twilio_one_frame ratecv_same "CA123" (silence_b64 4)
                1%nat idle_world) as [_ Hsend]; [vm_compute; reflexivity |].
    rewrite (Hsend "//8="); [| vm_compute; reflexivity | vm_compute; reflexivity].
    reflexivity.
  - destruct (send_audio_to_twilio_one_frame ratecv_refusing "CA123" (silence_b64 4)
                1%nat idle_world) as [Hdrop _]; [vm_compute; reflexivity |].
    apply (Hdrop (AudioopError "not a whole number of frames")).
    vm_compute. reflexivity.
Defined.


Lemma failed_message_ends_receive_loop_witness :
  _receive_and_forward ratecv_same "CA123"
    [audio_delta_event (silence_b64 4); text_delta_event "late"; response_done_event]
    hung_up_world
  = (Returns tt, hung_up_world).
Proof.
  apply (failed_message_ends_receive_loop ratecv_same "CA123" 0%nat
           (audio_delta_event (silence_b64 4))
           [text_delta_event "late"; response_done_event]
           ConnectionClosed hung_up_world hung_up_world).
  - vm_compute. reflexivity.
  - vm_compute. reflexivity.
Defined.

Lemma forward_raw_chunk_is_reencoded_witness :
  forward_media_chunk ratecv_refusing "CA123" "A A A A" raw_pcm_world
  = (Returns tt, snd (send_audio_chunk "CA123" "AAAA" raw_pcm_world)).
Proof.
  apply (forward_raw_chunk_is_reencoded ratecv_refusing "CA123" "A A A A"
           (mkAudioConfig "audio/L16" 16000) [x00; x00; x00] raw_pcm_world).
  - vm_compute. reflexivity.
  - right. reflexivity.
  - reflexivity.
  - vm_compute. reflexivity.
Defined.
